(** * seed.py: seeding a user's tasks with two weeks of sessions

    A shallow embedding of [seed.py] and the properties of its session
    generator, its weekday enumerator and its seeding driver.

    Modelling conventions.
    - Python [int] is [Z].  Python [float] is modelled by the rationals [Q]:
      every float is a rational, and the one rounding of each float
      operation is left out (the values stay far below 2^53).  [int(x)]
      truncates towards zero.
    - The [random] module is a tape of raw draws, one entry consumed by each
      call; code that draws is written in the state monad [Rand].  The script
      seeds the generator with 42; the theorems hold for every tape, hence
      for that one.
    - A [date] is its proleptic Gregorian ordinal, as [date.toordinal()]
      gives it; the local time zone is a function [utcoffset].
    - [data["tasks"]] is a list of tasks, and the dict [by_name] holds
      references into it: positions in that list.
    - [os.environ] is a map from names to values; [str.strip] and the test
      by which [os.putenv] takes or refuses a variable are parameters. *)

From Stdlib Require Import ZArith QArith Qround Lia Lqa Ascii.
From Equations Require Import Equations.
From stdpp Require Import base gmap list strings sorting.

Local Open Scope Z_scope.

(** ** The random source *)

Module Random.

Definition Rng : Type := nat -> N.

Definition Rand (A : Type) : Type := Rng -> A * Rng.

Definition ret {A} (a : A) : Rand A := fun g => (a, g).

Definition bind {A B} (m : Rand A) (k : A -> Rand B) : Rand B :=
  fun g => let (a, g') := m g in k a g'.

(** One raw draw: the head of the tape. *)
Definition next_raw : Rand N :=
  fun g => (g 0%nat, fun i => g (S i)).

(** [random.random()]: a float in [0, 1) with 53 bits. *)
Definition random : Rand Q :=
  bind next_raw (fun r => ret (Z.of_N (r mod 2 ^ 53) # 2 ^ 53)).

(** [random.uniform(a, b)] is [a + (b - a) * random()]. *)
Definition uniform (a b : Q) : Rand Q :=
  bind random (fun r => ret (a + (b - a) * r)%Q).

(** [random.randint(a, b)]: an integer of [a..b].  Python raises
    ValueError when [b < a]; [seed.py] never calls it so (see
    [latest_ge_day_start] for the one call that is not on constants). *)
Definition randint (a b : Z) : Rand Z :=
  bind next_raw (fun r => ret (a + Z.of_N r mod (b - a + 1))).

(** [itertools.accumulate(weights)]. *)
Fixpoint accumulate (acc : Q) (weights : list Q) : list Q :=
  match weights with
  | [] => []
  | w :: ws => (acc + w)%Q :: accumulate (acc + w)%Q ws
  end.

(** [bisect.bisect_right(a, x, 0, hi)] on a sorted list [a]. *)
Fixpoint bisect (a : list Q) (x : Q) (hi : nat) : nat :=
  match hi, a with
  | S hi', c :: a' => if Qle_bool c x then S (bisect a' x hi') else O
  | _, _ => O
  end.

(** [random.choices(population, weights=weights)[0]]; [dflt] stands for
    the IndexError of an empty population. *)
Definition choices {A} (dflt : A) (population : list A) (weights : list Q)
  : Rand A :=
  let cum_weights := accumulate 0 weights in
  let total := List.last cum_weights 0%Q in
  let hi := (length population - 1)%nat in
  bind random (fun r =>
    ret (nth (bisect cum_weights (r * total)%Q hi) population dflt)).

End Random.

Import Random.

Notation "'let*' x ':=' c 'in' k" := (bind c (fun x => k))
  (at level 10, x name, c at level 200, k at level 200, only parsing).

(** ** Numbers and dates *)

(** [int(x)] on a float: truncation towards zero. *)
Definition int (x : Q) : Z := Z.quot (Qnum x) (Z.pos (Qden x)).

(** A [datetime.date], by its ordinal (day 1 is 0001-01-01). *)
Definition date : Type := Z.

(** [d.weekday()]: 0 is Monday, 6 is Sunday. *)
Definition weekday (d : date) : Z := (d + 6) mod 7.

(** [d - timedelta(days=n)]. *)
Definition minus_days (d : date) (n : Z) : date := d - n.

(** [d - timedelta(weeks=n)]. *)
Definition minus_weeks (d : date) (n : Z) : date := d - 7 * n.

(** Ordinal of 1970-01-01. *)
Definition epoch_ordinal : Z := 719163.

(** ** Sessions, tasks and task specifications *)

Record Session := mkSession {
  start : Z;
  end_ : option Z   (* absent or null on a session that is still running *)
}.

Record Task := mkTask {
  id : string;
  name : string;
  sessions : list Session
}.

Record Spec := mkSpec {
  freq : Q;
  min_h : Q;
  max_h : Q
}.

(** [SEED_TASKS]: each entry's ["name"] beside its other three keys. *)
Definition SEED_TASKS : list (string * Spec) :=
  [ ("deep work"%string,     mkSpec (85 # 100) 1 (35 # 10));
    ("email & slack"%string, mkSpec (90 # 100) (3 # 10) (12 # 10));
    ("code review"%string,   mkSpec (65 # 100) (5 # 10) 2);
    ("meetings"%string,      mkSpec (55 # 100) (5 # 10) 2);
    ("planning"%string,      mkSpec (40 # 100) (3 # 10) 1) ].

(** [EXISTING_SEEDS], in insertion order (the order of [.items()]). *)
Definition EXISTING_SEEDS : list (string * Spec) :=
  [ ("React Query"%string,    mkSpec (55 # 100) (5 # 10) (25 # 10));
    ("Interview Prep"%string, mkSpec (45 # 100) (5 # 10) (15 # 10)) ].

Section Helpers.

(** The local zone: UTC offset, in seconds, of a naive local time given
    in seconds since 1970-01-01T00:00 local. *)
Variable utcoffset : Z -> Z.

(** [to_ms(d, hour, minute)]: [datetime(...).timestamp()] reads the naive
    datetime as local time. *)
Definition to_ms (d : date) (hour minute : Z) : Z :=
  let naive := (d - epoch_ordinal) * 86400 + hour * 3600 + minute * 60 in
  (naive - utcoffset naive) * 1000.

(** The body of [for i in range(n)] in [gen_sessions], with [k = n - i]
    iterations still to run; [is_last] is [i == n - 1], that is [k = 1]. *)
Fixpoint gen_loop (day_end : Z) (k : nat) (cursor remaining : Z)
    (sessions : list Session) : Rand (list Session) :=
  match k with
  | O => ret sessions
  | S k' =>
      let is_last := match k' with O => true | S _ => false end in
      let* chunk :=
        if is_last then ret remaining
        else let* u := uniform (35 # 100) (60 # 100) in
             ret (int (inject_Z remaining * u)) in
      let end_ts := Z.min (cursor + chunk) day_end in
      let sessions := sessions ++ [mkSession cursor (Some end_ts)] in
      let remaining := remaining - (end_ts - cursor) in
      if remaining <=? 0 then ret sessions
      else
        let* gap := randint 5 25 in
        let cursor := end_ts + gap * 60000 in
        if cursor >=? day_end then ret sessions
        else gen_loop day_end k' cursor remaining sessions
  end.

Definition gen_sessions (d : date) (total_hours : Q)
  : Rand (list Session) :=
  let total_ms := int (total_hours * 3600000) in
  let day_start := to_ms d 9 0 in
  let day_end := to_ms d 18 30 in
  let latest := Z.max day_start (day_end - total_ms - 1800000) in
  let* cursor := randint day_start latest in
  let* n := choices 1 [1; 2; 3] [45 # 100; 40 # 100; 15 # 100] in
  gen_loop day_end (Z.to_nat n) cursor total_ms [].

End Helpers.

(** The [while d <= yesterday] loop of [past_weekdays]. *)
Equations? weekdays_until (yesterday d : date) : list date
  by wf (Z.to_nat (yesterday - d + 1)) lt :=
  weekdays_until yesterday d with Z_le_gt_dec d yesterday => {
    | left _ =>
        if weekday d <? 5 then d :: weekdays_until yesterday (d + 1)
        else weekdays_until yesterday (d + 1)
    | right _ => []
  }.
Proof. all: lia. Qed.

(** [past_weekdays(n_weeks)]; [today] is what [date.today()] returns. *)
Definition past_weekdays (today : date) (n_weeks : Z) : list date :=
  let yesterday := minus_days today 1 in
  let start := minus_weeks today n_weeks in
  weekdays_until yesterday start.

(** ** The seeding driver *)

(** [{t["name"]: t for t in data["tasks"]}], from position [i] on: a later
    task replaces an earlier one of the same name. *)
Fixpoint index_tasks (i : nat) (tasks : list Task) (by_name : gmap string nat)
  : gmap string nat :=
  match tasks with
  | [] => by_name
  | t :: ts => index_tasks (S i) ts (<[name t := i]> by_name)
  end.

(** The first loop over [SEED_TASKS]: a task is created for each name that
    [by_name] lacks.  [uuids] supplies the values of [str(uuid.uuid4())]. *)
Fixpoint create_missing (uuids : nat -> string) (specs : list (string * Spec))
    (tasks : list Task) (by_name : gmap string nat)
  : list Task * gmap string nat :=
  match specs with
  | [] => (tasks, by_name)
  | (nm, _) :: specs' =>
      match by_name !! nm with
      | Some _ => create_missing uuids specs' tasks by_name
      | None =>
          let task := mkTask (uuids O) nm [] in
          create_missing (fun i => uuids (S i)) specs'
            (tasks ++ [task]) (<[nm := length tasks]> by_name)
      end
  end.

(** [task["sessions"].sort(key=lambda s: s["start"])]: a stable sort. *)
Fixpoint insert_by_start (s : Session) (l : list Session) : list Session :=
  match l with
  | [] => [s]
  | x :: l' =>
      if start s <=? start x then s :: l else x :: insert_by_start s l'
  end.

Fixpoint sort_by_start (l : list Session) : list Session :=
  match l with
  | [] => []
  | s :: l' => insert_by_start s (sort_by_start l')
  end.

Definition sort_sessions (task : Task) : Task :=
  mkTask (id task) (name task) (sort_by_start (sessions task)).

Section Driver.

Variable utcoffset : Z -> Z.

(** The innermost body of [add_sessions]: [s] is appended unless its
    start is among [existing]. *)
Definition add_session (acc : list Session * gset Z) (s : Session)
  : list Session * gset Z :=
  if decide (start s ∈ acc.2) then acc
  else (acc.1 ++ [s], acc.2 ∪ {[start s]}).

(** [for d in days] of [add_sessions], on the task's session list and
    the set [existing]. *)
Fixpoint add_days (spec : Spec) (days : list date)
    (acc : list Session * gset Z) : Rand (list Session * gset Z) :=
  match days with
  | [] => ret acc
  | d :: days' =>
      let* r := random in
      if negb (Qle_bool r (freq spec)) then add_days spec days' acc
      else
        let* total_hours := uniform (min_h spec) (max_h spec) in
        let* new := gen_sessions utcoffset d total_hours in
        add_days spec days' (fold_left add_session new acc)
  end.

(** [add_sessions(task, spec)], the task being [tasks[ref]]; a dangling
    reference does not occur (see [create_missing_refs]). *)
Definition add_sessions (days : list date) (tasks : list Task) (ref : nat)
    (spec : Spec) : Rand (list Task) :=
  match tasks !! ref with
  | None => ret tasks
  | Some task =>
      let existing : gset Z := list_to_set (start <$> sessions task) in
      let* acc := add_days spec days (sessions task, existing) in
      ret (<[ref := mkTask (id task) (name task) acc.1]> tasks)
  end.

(** The two loops that call [add_sessions]: [by_name[name]] for each
    entry of [specs] whose name is a key (for [SEED_TASKS] every name is,
    see [create_missing_refs], so no KeyError). *)
Fixpoint seed_each (days : list date) (by_name : gmap string nat)
    (specs : list (string * Spec)) (tasks : list Task)
  : Rand (list Task) :=
  match specs with
  | [] => ret tasks
  | (nm, spec) :: specs' =>
      match by_name !! nm with
      | None => seed_each days by_name specs' tasks
      | Some ref =>
          let* tasks := add_sessions days tasks ref spec in
          seed_each days by_name specs' tasks
      end
  end.

(** Lines 104 to 131 of [main]: the transformation of [data["tasks"]]. *)
Definition seed (today : date) (uuids : nat -> string) (tasks : list Task)
  : Rand (list Task) :=
  let by_name := index_tasks 0 tasks ∅ in
  let created := create_missing uuids SEED_TASKS tasks by_name in
  let days := past_weekdays today 2 in
  let* tasks := seed_each days created.2 SEED_TASKS created.1 in
  let* tasks := seed_each days created.2 EXISTING_SEEDS tasks in
  ret (sort_sessions <$> tasks).

(** The command line after the [.env] default was applied. *)
Record Args := mkArgs {
  email : string;
  db : option string
}.

(** The two tables; [tasks_json] is kept decoded ([json.loads] and
    [json.dumps] are not modelled), and only its ["tasks"] key. *)
Record Database := mkDatabase {
  users : list (Z * string);          (* rows (id, email) *)
  user_data : gmap Z (list Task)      (* user_id to tasks_json *)
}.

Inductive Printed :=
| Line (text : string)
| Summary (days : list date) (email : string) (tasks : list Task).

Inductive Outcome :=
| UsageError                      (* parser.error: no database URL *)
| Returned (out : Printed) (database : Database).

Definition main (today : date) (uuids : nat -> string) (args : Args)
    (database : Database) : Rand Outcome :=
  match db args with
  | None => ret UsageError
  | Some _ =>
      match List.find (fun row => String.eqb row.2 (email args))
                      (users database) with
      | None =>
          ret (Returned
                 (Line ("No user found with email: " ++ email args))
                 database)
      | Some row =>
          let user_id := row.1 in
          let tasks := default [] (user_data database !! user_id) in
          let* tasks := seed today uuids tasks in
          ret (Returned (Summary (past_weekdays today 2) (email args) tasks)
                 (mkDatabase (users database)
                    (<[user_id := tasks]> (user_data database))))
      end
  end.

End Driver.

(** ** The [.env] file and the command line *)

(** ["=" in line]. *)
Fixpoint contains_eq (line : string) : bool :=
  match line with
  | EmptyString => false
  | String c rest => if Ascii.eqb c "="%char then true else contains_eq rest
  end.

(** [line.startswith("#")]. *)
Definition starts_with_hash (line : string) : bool :=
  match line with
  | EmptyString => false
  | String c _ => Ascii.eqb c "#"%char
  end.

(** [line.split("=", 1)]: what comes before and after the first ["="];
    [None] when there is none (a list of one element, which [k, v = ...]
    cannot unpack). *)
Fixpoint split_eq (line : string) : option (string * string) :=
  match line with
  | EmptyString => None
  | String c rest =>
      if Ascii.eqb c "="%char then Some (EmptyString, rest)
      else match split_eq rest with
           | Some (k, v) => Some (String c k, v)
           | None => None
           end
  end.

Section EnvFile.

(** [str.strip()]. *)
Variable strip : string -> string.

(** Whether [os.putenv] takes the name and the value (it raises on an
    empty name, for one). *)
Variable putenv_ok : string -> string -> bool.

(** [os.environ.setdefault(key, value)]; [None] when setting raises. *)
Definition setdefault (key value : string) (environ : gmap string string)
  : option (gmap string string) :=
  match environ !! key with
  | Some _ => Some environ
  | None =>
      if putenv_ok key value then Some (<[key := value]> environ) else None
  end.

(** The body of [for line in ...splitlines()]. *)
Definition env_line (environ : gmap string string) (line : string)
  : option (gmap string string) :=
  if contains_eq line && negb (starts_with_hash line) then
    match split_eq line with
    | Some (k, v) => setdefault (strip k) (strip v) environ
    | None => None
    end
  else Some environ.

Fixpoint load_lines (lines : list string) (environ : gmap string string)
  : option (gmap string string) :=
  match lines with
  | [] => Some environ
  | line :: lines' =>
      match env_line environ line with
      | Some environ' => load_lines lines' environ'
      | None => None
      end
  end.

(** Lines 72 to 77 of [main]; [env_file] is [None] when the file does not
    exist, else its lines. *)
Definition load_env (env_file : option (list string))
    (environ : gmap string string) : option (gmap string string) :=
  match env_file with
  | None => Some environ
  | Some lines => load_lines lines environ
  end.

End EnvFile.

(** The options given on the command line. *)
Record CommandLine := mkCommandLine {
  opt_email : option string;
  opt_db : option string
}.

(** A string as [if not args.db] reads it: an empty one counts as none. *)
Definition truthy (s : option string) : option string :=
  match s with
  | Some EmptyString => None
  | _ => s
  end.

(** [parser.parse_args()] with [--email] required and
    [os.getenv("DATABASE_URL")] as the default of [--db]; [None] is the
    exit of argparse on a missing [--email]. *)
Definition parse_args (cli : CommandLine) (environ : gmap string string)
  : option Args :=
  match opt_email cli with
  | None => None
  | Some e =>
      let url := match opt_db cli with
                 | Some u => Some u
                 | None => environ !! "DATABASE_URL"%string
                 end in
      Some (mkArgs e (truthy url))
  end.

Section Script.

Variable utcoffset : Z -> Z.
Variable strip : string -> string.
Variable putenv_ok : string -> string -> bool.

(** The whole of [main], from the [.env] file on; [None] is an exception
    raised while the file is loaded. *)
Definition script (env_file : option (list string))
    (environ : gmap string string) (cli : CommandLine) (today : date)
    (uuids : nat -> string) (database : Database) : Rand (option Outcome) :=
  match load_env strip putenv_ok env_file environ with
  | None => ret None
  | Some environ' =>
      match parse_args cli environ' with
      | None => ret (Some UsageError)
      | Some args =>
          let* outcome := main utcoffset today uuids args database in
          ret (Some outcome)
      end
  end.

End Script.

(** ** The summary after the commit *)


Section Summary.

Variable utcoffset : Z -> Z.

(** Whether lines 141 to 146 run to their end on the days, the email and
    the tasks that they print; line 145 raises when
    [datetime.fromtimestamp] refuses the start of a stored session. *)
Variable summary_completes : list date -> string -> list Task -> bool.


End Summary.


(** * Notions used by the properties *)

(** [returns m a]: some tape makes [m] return [a]. *)
Definition returns {A} (m : Rand A) (a : A) : Prop := exists g, (m g).1 = a.

(** [end - start] of a session, and the sum over a list. *)
Definition duration (s : Session) : Z :=
  match end_ s with
  | Some e => e - start s
  | None => 0
  end.

Definition total_duration (l : list Session) : Z :=
  foldr (fun s acc => duration s + acc) 0 l.

(** Sessions that lie in [lo..hi], each with [start < end], each starting
    five minutes or more after the one before it ended. *)
Fixpoint chain (lo hi : Z) (l : list Session) : Prop :=
  match l with
  | [] => True
  | s :: l' =>
      exists e, end_ s = Some e /\ lo <= start s /\ start s < e /\ e <= hi /\
                chain (e + 300000) hi l'
  end.

(** What a non-last chunk needs of the remaining budget, [k] iterations
    before the last one: three times as much each iteration earlier. *)
Fixpoint budget_floor (k : nat) : Z :=
  match k with
  | O => 1
  | S k' => 3 * budget_floor k'
  end.

(** [existing] holds exactly the starts of the session list. *)
Definition tracks (acc : list Session * gset Z) : Prop :=
  forall x, x ∈ acc.2 <-> x ∈ start <$> acc.1.

(** What the loops of [add_sessions] do to the pair of the session list and
    [existing]: the list grows at its end, and starts stay distinct. *)
Definition extends (acc acc' : list Session * gset Z) : Prop :=
  acc.1 `prefix_of` acc'.1 /\
  (tracks acc -> NoDup (start <$> acc.1) ->
   tracks acc' /\ NoDup (start <$> acc'.1)).

(** A task after some calls of [add_sessions]: same id, same name, the
    session list grown at its end, starts still distinct if they were. *)
Definition grows (t t' : Task) : Prop :=
  id t' = id t /\ name t' = name t /\
  sessions t `prefix_of` sessions t' /\
  (NoDup (start <$> sessions t) -> NoDup (start <$> sessions t')).

(** Every value of [by_name] is a position of [tasks], of a task with the
    key as its name. *)
Definition refs_valid (by_name : gmap string nat) (tasks : list Task) : Prop :=
  forall nm i, by_name !! nm = Some i ->
               exists t, tasks !! i = Some t /\ name t = nm.

(** A list that [add_sessions] gets from [gen_sessions] on day [d] for
    [spec]: its duration is drawn from the range of [spec]. *)
Definition generated_for (utcoffset : Z -> Z) (spec : Spec) (d : date)
    (l : list Session) : Prop :=
  exists total_hours,
    returns (uniform (min_h spec) (max_h spec)) total_hours /\
    returns (gen_sessions utcoffset d total_hours) l.

(** Sessions that calls of [add_sessions] append to one task: taken in
    order from lists generated for days of [days] and specifications of
    [specs], at most one list a day. *)
Definition appended (utcoffset : Z -> Z) (specs : list (string * Spec))
    (days : list date) (extra : list Session) : Prop :=
  exists gens,
    extra `sublist_of` concat gens /\
    (length gens <= length days)%nat /\
    Forall (fun l => exists d nm spec,
                       d ∈ days /\ (nm, spec) ∈ specs /\
                       generated_for utcoffset spec d l) gens.

(** Sessions whose starts differ from one another and from the starts of
    the sessions of [old]. *)
Definition fresh_from (old extra : list Session) : Prop :=
  NoDup (start <$> extra) /\
  forall x, x ∈ start <$> extra -> x ∉ start <$> old.

(** A task before and after the loops that call [add_sessions], [names]
    being the names these loops have gone through. *)
Definition gained (utcoffset : Z -> Z) (specs : list (string * Spec))
    (days : list date) (names : list string) (t t' : Task) : Prop :=
  id t' = id t /\ name t' = name t /\
  exists extra,
    sessions t' = sessions t ++ extra /\
    appended utcoffset specs days extra /\
    fresh_from (sessions t) extra /\
    (name t ∉ names -> extra = []).

(** A session with an end, inside the 09:00 to 18:30 window of one of
    [days], that starts before it ends. *)
Definition in_window_of (utcoffset : Z -> Z) (days : list date)
    (s : Session) : Prop :=
  exists d e,
    d ∈ days /\ end_ s = Some e /\
    to_ms utcoffset d 9 0 <= start s /\ start s < e /\
    e <= to_ms utcoffset d 18 30.

(** The sessions of task [i] of a document; none when it has no such
    task. *)
Definition sessions_at (tasks : list Task) (i : nat) : list Session :=
  default [] (sessions <$> tasks !! i).

(** ** Sample inputs *)

Module Sample.

(** A zone three hours behind UTC all year. *)
Definition zone : Z -> Z := fun _ => -10800.

(** A tape: the second draw is 2^52, every other draw is 0. *)
Definition tape : Rng :=
  fun i => match i with 1%nat => 4503599627370496%N | _ => 0%N end.

(** 2026-11-04, a Wednesday. *)
Definition today : date := 739924.

(** The day before it. *)
Definition day : date := 739923.

Definition uuids : nat -> string :=
  fun _ => "00000000-0000-4000-8000-000000000000"%string.

Definition doc : list Task :=
  [mkTask "id-1" "React Query"
     [mkSession 10 (Some 20); mkSession 30 (Some 40)]].

(** A document whose task has two sessions with the same start. *)
Definition dup_doc : list Task :=
  [mkTask "id-1" "React Query"
     [mkSession 10 (Some 20); mkSession 10 (Some 30)]].

Definition args : Args :=
  mkArgs "nobody@example.com" (Some "postgresql://localhost/tt"%string).

Definition database : Database :=
  mkDatabase [(1, "you@example.com"%string)] {[ 1 := doc ]}.

(** A document with a task that no table names. *)
Definition other_doc : list Task :=
  [mkTask "id-7" "reading"
     [mkSession 50 (Some 60); mkSession 10 (Some 20)]].

Definition args_found : Args :=
  mkArgs "you@example.com" (Some "postgresql://localhost/tt"%string).

(** The user has no row in [user_data]. *)
Definition database_no_row : Database :=
  mkDatabase [(1, "you@example.com"%string)] ∅.

(** A [strip] for blanks: spaces at both ends are dropped. *)
Fixpoint lstrip (s : string) : string :=
  match s with
  | EmptyString => EmptyString
  | String c s' => if Ascii.eqb c " " then lstrip s' else s
  end.

Definition reverse (s : string) : string :=
  String.string_of_list_ascii (List.rev (String.list_ascii_of_string s)).

Definition strip (s : string) : string :=
  reverse (lstrip (reverse (lstrip s))).

(** A [putenv] that refuses the empty name. *)
Definition putenv_ok (key value : string) : bool :=
  negb (String.eqb key "").

Definition env_lines : list string :=
  [ "# local settings"; " DATABASE_URL = postgresql://localhost/tt ";
    "DEBUG=1" ]%string.

Definition environ : gmap string string :=
  {[ "DATABASE_URL"%string := "postgresql://prod/tt"%string ]}.

Definition cli : CommandLine :=
  mkCommandLine (Some "you@example.com"%string) None.

Definition cli_empty_db : CommandLine :=
  mkCommandLine (Some "you@example.com"%string) (Some ""%string).

(** Antarctica/DumontDUrville at the start of 1947: no offset from UTC
    until the clock was set ten hours ahead, at 00:00 UTC of 1947-01-01;
    local times before 10:00 of that day are read with no offset. *)
Definition zone_1947 : Z -> Z :=
  fun naive => if naive <? -725810400 then 0 else 36000.

(** 1947-01-01. *)
Definition day_1947 : date := 710762.

(** A document with two tasks: the first has two sessions with the same
    start, the second has not. *)
Definition mixed_doc : list Task :=
  [mkTask "id-1" "React Query"
     [mkSession 10 (Some 20); mkSession 10 (Some 30)];
   mkTask "id-2" "Interview Prep"
     [mkSession 10 (Some 20); mkSession 30 (Some 40)]].


End Sample.

(** * Properties *)

(** ** Possible results of a drawing computation *)

Lemma returns_run {A} (m : Rand A) g : returns m (m g).1.
Proof. by exists g. Qed.

Lemma returns_ret {A} (a b : A) : returns (ret a) b -> b = a.
Proof. by intros [g <-]. Qed.

Lemma returns_bind {A B} (m : Rand A) (k : A -> Rand B) b :
  returns (bind m k) b -> exists a, returns m a /\ returns (k a) b.
Proof.
  intros [g <-]. unfold bind. destruct (m g) as [a g'] eqn:E.
  exists a. split; [exists g; by rewrite E | by exists g'].
Qed.

Ltac inv_returns H :=
  lazymatch type of H with
  | returns (ret _) _ => apply returns_ret in H; try subst
  | returns (bind _ _) _ =>
      let a := fresh "a" in
      let Ha := fresh "Hdraw" in
      apply returns_bind in H; destruct H as (a & Ha & H)
  end.

Lemma random_range r : returns random r -> (0 <= r /\ r < 1)%Q.
Proof.
  unfold random. intros H. inv_returns H. inv_returns H.
  assert (0 <= Z.of_N (a mod 2 ^ 53) < 2 ^ 53) as Hr.
  { pose proof (N.mod_upper_bound a (2 ^ 53)%N ltac:(done)) as Hlt.
    apply N2Z.inj_lt in Hlt. split; [apply N2Z.is_nonneg | exact Hlt]. }
  change (2 ^ 53) with 9007199254740992 in Hr.
  unfold Qle, Qlt. simpl. lia.
Qed.

Lemma uniform_range a b u :
  (a <= b)%Q -> returns (uniform a b) u -> (a <= u /\ u <= b)%Q.
Proof.
  intros Hab H. unfold uniform in H. inv_returns H. inv_returns H.
  apply random_range in Hdraw. destruct Hdraw as [H0 H1].
  assert (0 <= (b - a) * a0)%Q by (apply Qmult_le_0_compat; lra).
  assert (0 <= (b - a) * (1 - a0))%Q by (apply Qmult_le_0_compat; lra).
  split; lra.
Qed.

Lemma randint_range a b x : a <= b -> returns (randint a b) x -> a <= x <= b.
Proof.
  intros Hab H. unfold randint in H. inv_returns H. inv_returns H.
  pose proof (Z.mod_pos_bound (Z.of_N a0) (b - a + 1)). lia.
Qed.

Lemma bisect_le a x hi : (bisect a x hi <= hi)%nat.
Proof.
  revert a. induction hi as [|hi IH]; intros [|c a]; simpl; try lia.
  destruct (Qle_bool c x); [specialize (IH a)|]; lia.
Qed.

Lemma choices_elem {A} (dflt : A) population weights x :
  population <> [] -> returns (choices dflt population weights) x ->
  In x population.
Proof.
  intros Hne H. unfold choices in H. inv_returns H. inv_returns H.
  apply nth_In.
  pose proof (bisect_le (accumulate 0 weights)
                (a * List.last (accumulate 0 weights) 0)%Q
                (length population - 1)).
  destruct population; [done | simpl in *; lia].
Qed.

(** ** Truncation *)

Lemma int_floor x : (0 <= x)%Q -> int x = Qfloor x.
Proof.
  destruct x as [n d]. unfold Qle, int, Qfloor. simpl. intros Hn.
  apply Z.quot_div_nonneg; lia.
Qed.

Lemma int_nonneg x : (0 <= x)%Q -> 0 <= int x.
Proof.
  intros Hx. rewrite int_floor by done.
  change 0 with (Qfloor 0). by apply Qfloor_resp_le.
Qed.

(** The chunk [int(remaining * u)] of a session that is not the last. *)
Lemma chunk_bounds remaining u :
  0 <= remaining -> (35 # 100 <= u)%Q -> (u <= 60 # 100)%Q ->
  let chunk := int (inject_Z remaining * u) in
  0 <= chunk /\ 100 * chunk <= 60 * remaining /\
  35 * remaining < 100 * (chunk + 1).
Proof.
  intros Hr Hlo Hhi chunk.
  assert (0 <= inject_Z remaining)%Q as Hr'.
  { change 0%Q with (inject_Z 0). by rewrite <- Zle_Qle. }
  assert (0 <= inject_Z remaining * u)%Q as Hx by nra.
  pose proof (int_nonneg _ Hx) as Hc.
  pose proof (Qfloor_le (inject_Z remaining * u)) as Hfl.
  pose proof (Qlt_floor (inject_Z remaining * u)) as Hfu.
  rewrite <- (int_floor _ Hx) in Hfl, Hfu. fold chunk in Hc, Hfl, Hfu.
  assert (inject_Z remaining * u <= inject_Z remaining * (60 # 100))%Q as Hmax
    by (rewrite !(Qmult_comm (inject_Z remaining));
        by apply Qmult_le_compat_r).
  assert (inject_Z remaining * (35 # 100) <= inject_Z remaining * u)%Q as Hmin
    by (rewrite !(Qmult_comm (inject_Z remaining));
        by apply Qmult_le_compat_r).
  rewrite inject_Z_plus in Hfu.
  split; [done|]. split.
  - rewrite Zle_Qle, !inject_Z_mult.
    change (inject_Z 100) with 100%Q. change (inject_Z 60) with 60%Q. lra.
  - rewrite Zlt_Qlt, !inject_Z_mult, inject_Z_plus.
    change (inject_Z 100) with 100%Q. change (inject_Z 35) with 35%Q.
    change (inject_Z 1) with 1%Q in *. lra.
Qed.

(** ** The session generator *)

Lemma budget_floor_pos k : 0 < budget_floor k.
Proof. induction k; simpl; lia. Qed.

Section Generator.

Variable utcoffset : Z -> Z.

(** [randint(day_start, latest)] is always called on a non-empty range. *)
Lemma latest_ge_day_start (day_start day_end total_ms : Z) :
  day_start <= Z.max day_start (day_end - total_ms - 1800000).
Proof. lia. Qed.

Lemma gen_loop_app day_end k cursor remaining acc g :
  (gen_loop day_end k cursor remaining acc g).1 =
  acc ++ (gen_loop day_end k cursor remaining [] g).1.
Proof.
  revert cursor remaining acc g.
  induction k as [|k IH]; intros cursor remaining acc g; simpl.
  { by rewrite app_nil_r. }
  set (mc := if match k with O => true | S _ => false end
             then ret remaining else _).
  clearbody mc. unfold bind. destruct (mc g) as [chunk g1].
  destruct (_ <=? 0); [done|].
  destruct (randint 5 25 g1) as [gap g2].
  destruct (_ >=? day_end); [done|].
  rewrite IH. rewrite (IH _ _ [_]). by rewrite <- app_assoc.
Qed.

(** One iteration of the loop, as a relation between the state before it
    and the list that the loop returns. *)
Lemma gen_loop_step day_end k cursor remaining l :
  returns (gen_loop day_end (S k) cursor remaining []) l ->
  exists chunk,
    (k = O /\ chunk = remaining \/
     k <> O /\ exists u, (35 # 100 <= u)%Q /\ (u <= 60 # 100)%Q /\
                         chunk = int (inject_Z remaining * u)) /\
    let end_ts := Z.min (cursor + chunk) day_end in
    let remaining' := remaining - (end_ts - cursor) in
    (l = [mkSession cursor (Some end_ts)] \/
     exists gap l',
       5 <= gap <= 25 /\ 0 < remaining' /\
       end_ts + gap * 60000 < day_end /\
       returns (gen_loop day_end k (end_ts + gap * 60000) remaining' []) l' /\
       l = mkSession cursor (Some end_ts) :: l').
Proof.
  intros H. simpl in H. inv_returns H. exists a. split.
  { destruct k.
    - left. inv_returns Hdraw. done.
    - right. split; [done|]. inv_returns Hdraw. inv_returns Hdraw.
      apply uniform_range in Hdraw0; [|done]. exists a0. tauto. }
  simpl. destruct (_ <=? 0) eqn:Hrem.
  { left. by inv_returns H. }
  inv_returns H. apply randint_range in Hdraw0; [|lia].
  destruct (_ >=? day_end) eqn:Hcur.
  { left. by inv_returns H. }
  right. destruct H as [g H]. rewrite gen_loop_app in H. simpl in H.
  exists a0, (gen_loop day_end k (Z.min (cursor + a) day_end + a0 * 60000)
                (remaining - (Z.min (cursor + a) day_end - cursor)) [] g).1.
  repeat split; [lia | lia | lia | lia | apply returns_run | done].
Qed.

Lemma gen_loop_length day_end k cursor remaining l :
  returns (gen_loop day_end k cursor remaining []) l ->
  (length l <= k)%nat /\ (k <> O -> (1 <= length l)%nat).
Proof.
  revert cursor remaining l.
  induction k as [|k IH]; intros cursor remaining l H.
  { simpl in H. inv_returns H. simpl. lia. }
  apply gen_loop_step in H. destruct H as (chunk & _ & H). simpl in H.
  destruct H as [-> | (gap & l' & _ & _ & _ & H & ->)]; simpl; [lia|].
  apply IH in H. lia.
Qed.

Lemma gen_loop_budget day_end k cursor remaining l :
  0 <= remaining ->
  returns (gen_loop day_end k cursor remaining []) l ->
  Forall (fun s => is_Some (end_ s)) l /\ total_duration l <= remaining.
Proof.
  revert cursor remaining l.
  induction k as [|k IH]; intros cursor remaining l Hrem H.
  { simpl in H. inv_returns H. simpl. split; [constructor | lia]. }
  apply gen_loop_step in H. destruct H as (chunk & Hchunk & H).
  assert (0 <= chunk <= remaining) as Hc.
  { destruct Hchunk as [[_ ->] | (_ & u & Hlo & Hhi & ->)]; [lia|].
    pose proof (chunk_bounds remaining u Hrem Hlo Hhi). simpl in *. lia. }
  simpl in H.
  destruct H as [-> | (gap & l' & _ & Hpos & _ & H & ->)].
  { split; [repeat constructor; by eexists|].
    unfold total_duration, duration; simpl. lia. }
  apply IH in H; [|lia]. destruct H as [Hends Hsum].
  split; [constructor; [by eexists | done]|].
  unfold total_duration, duration in *; simpl. lia.
Qed.

Lemma gen_loop_chain day_end k cursor remaining l :
  cursor < day_end ->
  budget_floor (k - 1) <= remaining ->
  returns (gen_loop day_end k cursor remaining []) l ->
  chain cursor day_end l.
Proof.
  revert cursor remaining l.
  induction k as [|k IH]; intros cursor remaining l Hcur Hrem H.
  { simpl in H. by inv_returns H. }
  replace (S k - 1)%nat with k in Hrem by lia.
  pose proof (budget_floor_pos k) as Hpos.
  apply gen_loop_step in H. destruct H as (chunk & Hchunk & H).
  assert (1 <= chunk /\ 100 * chunk <= 100 * remaining /\
          (k <> O -> 100 * chunk <= 60 * remaining)) as (Hc1 & Hc2 & Hc3).
  { destruct Hchunk as [[-> ->] | (Hk & u & Hlo & Hhi & ->)]; [lia|].
    pose proof (chunk_bounds remaining u ltac:(lia) Hlo Hhi) as Hb.
    simpl in Hb. destruct k as [|k']; [done|]. simpl in Hrem.
    pose proof (budget_floor_pos k'). lia. }
  simpl in H.
  destruct H as [-> | (gap & l' & Hgap & Hrem' & Hcur' & H & ->)].
  { simpl. eexists. split; [done|]. lia. }
  simpl. eexists. split; [done|]. repeat split; [lia | lia | lia |].
  destruct k as [|k'].
  { simpl in H. by inv_returns H. }
  assert (chain (Z.min (cursor + chunk) day_end + gap * 60000) day_end l')
    as Hchain.
  { eapply IH; [done | | exact H].
    replace (S k' - 1)%nat with k' by lia. simpl in Hrem.
    pose proof (budget_floor_pos k'). lia. }
  clear -Hchain Hgap. destruct l' as [|s l']; [done|].
  destruct Hchain as (e & He & Hlo & Hrest). exists e. split; [done|].
  split; [lia | done].
Qed.

Lemma chain_weaken lo lo' hi l : lo' <= lo -> chain lo hi l -> chain lo' hi l.
Proof.
  intros Hlo. destruct l as [|s l]; [done|]. simpl.
  intros (e & He & Hs & Hrest). exists e. split; [done|].
  split; [lia | done].
Qed.

Lemma chain_elem lo hi l s :
  chain lo hi l -> s ∈ l ->
  exists e, end_ s = Some e /\ lo <= start s /\ start s < e /\ e <= hi.
Proof.
  revert lo. induction l as [|x l IH]; intros lo Hchain Hin.
  { by apply elem_of_nil in Hin. }
  destruct Hchain as (e & He & Hlo & Hlt & Hhi & Hrest).
  apply elem_of_cons in Hin. destruct Hin as [-> | Hin].
  { exists e. done. }
  apply (IH lo); [|done]. eapply chain_weaken; [|exact Hrest]. lia.
Qed.

Lemma chain_pair lo hi l (i j : nat) a b :
  chain lo hi l -> (i < j)%nat -> l !! i = Some a -> l !! j = Some b ->
  exists e, end_ a = Some e /\ start a < e /\ e + 300000 <= start b.
Proof.
  revert lo i j. induction l as [|x l IH]; intros lo i j Hchain Hij Ha Hb.
  { done. }
  destruct Hchain as (e & He & Hlo & Hlt & Hhi & Hrest).
  destruct j as [|j]; [lia|]. simpl in Hb.
  destruct i as [|i]; simpl in Ha.
  - injection Ha as <-. exists e. split; [done|]. split; [done|].
    apply list_elem_of_lookup_2 in Hb.
    destruct (chain_elem _ _ _ _ Hrest Hb) as (e' & _ & Hb' & _). done.
  - apply (IH (e + 300000) i j); [done | lia | done | done].
Qed.

Lemma gen_sessions_inv d total_hours l :
  returns (gen_sessions utcoffset d total_hours) l ->
  let total_ms := int (total_hours * 3600000) in
  let day_start := to_ms utcoffset d 9 0 in
  let day_end := to_ms utcoffset d 18 30 in
  exists cursor n,
    day_start <= cursor <= Z.max day_start (day_end - total_ms - 1800000) /\
    (1 <= n <= 3)%nat /\
    returns (gen_loop day_end n cursor total_ms []) l.
Proof.
  intros H. unfold gen_sessions in H. inv_returns H. inv_returns H.
  apply randint_range in Hdraw; [|apply latest_ge_day_start].
  apply choices_elem in Hdraw0; [|done].
  exists a, (Z.to_nat a0). split; [done|]. split; [|done].
  simpl in Hdraw0. lia.
Qed.

Lemma total_ms_ge (total_hours : Q) :
  (3 # 10 <= total_hours)%Q -> 1080000 <= int (total_hours * 3600000).
Proof.
  intros Hh. rewrite int_floor by nra.
  change 1080000 with (Qfloor ((3 # 10) * 3600000)).
  apply Qfloor_resp_le. nra.
Qed.

(** When the cursor is at or after [day_end], the loop stops after one
    session, which ends at [day_end] or before. *)
Lemma gen_loop_inverted day_end k cursor remaining l :
  day_end <= cursor -> 0 <= remaining ->
  returns (gen_loop day_end (S k) cursor remaining []) l ->
  exists e, l = [mkSession cursor (Some e)] /\ e <= day_end.
Proof.
  intros Hcur Hrem H.
  apply gen_loop_step in H. destruct H as (chunk & Hchunk & H).
  assert (0 <= chunk) as Hc.
  { destruct Hchunk as [[_ ->] | (_ & u & Hlo & Hhi & ->)]; [done|].
    pose proof (chunk_bounds remaining u Hrem Hlo Hhi). simpl in *. lia. }
  simpl in H.
  destruct H as [-> | (gap & l' & Hgap & _ & Hnext & _)]; [|lia].
  eexists. split; [done | lia].
Qed.

(** C2, amended (session bounds).  Every session that [gen_sessions]
    returns for a target of 0.3 hours or more has an end, starts at or
    after [day_start] and ends at or before [day_end]; it starts before it
    ends on every day whose [day_start] is before its [day_end]. *)
Theorem gen_sessions_in_window d total_hours g s :
  (3 # 10 <= total_hours)%Q ->
  s ∈ (gen_sessions utcoffset d total_hours g).1 ->
  exists e, end_ s = Some e /\
            to_ms utcoffset d 9 0 <= start s /\
            e <= to_ms utcoffset d 18 30 /\
            (to_ms utcoffset d 9 0 < to_ms utcoffset d 18 30 ->
             start s < e).
Proof.
  intros Hh Hin.
  pose proof (returns_run (gen_sessions utcoffset d total_hours) g) as H.
  apply gen_sessions_inv in H. simpl in H.
  destruct H as (cursor & n & Hcur & Hn & H).
  pose proof (total_ms_ge _ Hh) as Hms.
  destruct (Z_lt_le_dec (to_ms utcoffset d 9 0) (to_ms utcoffset d 18 30))
    as [Hwin | Hinv].
  - apply gen_loop_chain in H.
    + destruct (chain_elem _ _ _ _ H Hin) as (e & He & Hlo & Hlt & Hhi).
      exists e. repeat split; [done | lia | done | done].
    + lia.
    + assert (budget_floor (n - 1) <= 9); [|lia].
      destruct n as [|[|[|[|n]]]]; simpl; lia.
  - destruct n as [|n]; [lia|].
    apply gen_loop_inverted in H; [|lia|lia].
    destruct H as (e & Hl & He). rewrite Hl in Hin.
    apply list_elem_of_singleton in Hin. subst s.
    exists e. simpl. repeat split; [lia | done | lia].
Qed.

(** C5 (session count).  [gen_sessions] returns at least one and at most
    three sessions, for every day and every target duration (so also for
    those of 0.3 hours or more). *)
Theorem gen_sessions_count d total_hours g :
  (1 <= length (gen_sessions utcoffset d total_hours g).1 <= 3)%nat.
Proof.
  pose proof (returns_run (gen_sessions utcoffset d total_hours) g) as H.
  apply gen_sessions_inv in H. simpl in H.
  destruct H as (cursor & n & _ & Hn & H).
  apply gen_loop_length in H. lia.
Qed.

(** C9 (budget).  For a target duration of zero or more, every session
    that [gen_sessions] returns has an end, and the sum of [end - start]
    over them is at most [int(total_hours * 3_600_000)]. *)
Theorem gen_sessions_budget d total_hours g :
  (0 <= total_hours)%Q ->
  let l := (gen_sessions utcoffset d total_hours g).1 in
  Forall (fun s => is_Some (end_ s)) l /\
  total_duration l <= int (total_hours * 3600000).
Proof.
  intros Hh l.
  pose proof (returns_run (gen_sessions utcoffset d total_hours) g) as H.
  apply gen_sessions_inv in H. simpl in H.
  destruct H as (cursor & n & _ & _ & H).
  apply gen_loop_budget in H; [done|]. apply int_nonneg. nra.
Qed.

(** C10 (spacing).  In the list that one call of [gen_sessions] returns
    for a target of 0.3 hours or more, on any day, a session that comes
    later in the list starts five minutes (300000 ms) or more after an
    earlier one ended, and so after the earlier one started: the sessions
    do not overlap and are in strictly increasing order.  Consecutive
    sessions are the case [j = i + 1]. *)
Theorem gen_sessions_spaced d total_hours g (i j : nat) a b :
  (3 # 10 <= total_hours)%Q ->
  (i < j)%nat ->
  (gen_sessions utcoffset d total_hours g).1 !! i = Some a ->
  (gen_sessions utcoffset d total_hours g).1 !! j = Some b ->
  exists e, end_ a = Some e /\ e + 300000 <= start b /\
            start a < start b.
Proof.
  intros Hh Hij Ha Hb.
  pose proof (returns_run (gen_sessions utcoffset d total_hours) g) as H.
  apply gen_sessions_inv in H. simpl in H.
  destruct H as (cursor & n & Hcur & Hn & H).
  pose proof (total_ms_ge _ Hh) as Hms.
  destruct (Z_lt_le_dec (to_ms utcoffset d 9 0) (to_ms utcoffset d 18 30))
    as [Hwin | Hinv].
  - apply gen_loop_chain in H.
    + destruct (chain_pair _ _ _ _ _ _ _ H Hij Ha Hb)
        as (e & He & Hlt & Hgap).
      exists e. repeat split; [done | done | lia].
    + lia.
    + assert (budget_floor (n - 1) <= 9); [|lia].
      destruct n as [|[|[|[|n]]]]; simpl; lia.
  - destruct n as [|n]; [lia|].
    apply gen_loop_inverted in H; [|lia|lia].
    destruct H as (e & Hl & He). rewrite Hl in Hb.
    destruct j as [|j]; [lia | done].
Qed.

End Generator.

(** ** The weekday enumerator *)

Lemma weekdays_until_spec yesterday d x :
  x ∈ weekdays_until yesterday d <-> (d <= x <= yesterday /\ weekday x < 5).
Proof.
  funelim (weekdays_until yesterday d).
  - destruct (weekday d <? 5) eqn:Hwd.
    + rewrite elem_of_cons, H. split.
      * intros [-> | ?]; lia.
      * intros [? ?]. destruct (decide (x = d)); [by left | right; lia].
    + rewrite H. split; [lia|].
      intros [? ?]. destruct (decide (x = d)) as [->|]; lia.
  - rewrite elem_of_nil. lia.
Qed.

(** C4 (weekdays of the last two weeks).  Every date of [past_weekdays(2)]
    falls on Monday to Friday and lies from two weeks before today up to and
    including yesterday. *)
Theorem past_weekdays_two_weeks today :
  Forall (fun d => 0 <= weekday d <= 4 /\
                   minus_weeks today 2 <= d <= minus_days today 1)
         (past_weekdays today 2).
Proof.
  apply Forall_forall. intros d Hd. unfold past_weekdays in Hd.
  apply weekdays_until_spec in Hd.
  pose proof (Z.mod_pos_bound (d + 6) 7 ltac:(lia)).
  unfold weekday in *. lia.
Qed.

(** ** Sorting by start *)

Lemma insert_by_start_perm s l : insert_by_start s l ≡ₚ s :: l.
Proof.
  induction l as [|x l IH]; simpl; [done|].
  destruct (start s <=? start x); [done|].
  rewrite IH. apply perm_swap.
Qed.

Lemma sort_by_start_perm l : sort_by_start l ≡ₚ l.
Proof.
  induction l as [|s l IH]; simpl; [done|].
  by rewrite insert_by_start_perm, IH.
Qed.

Lemma insert_by_start_sorted s l :
  Sorted (fun a b => start a <= start b) l ->
  Sorted (fun a b => start a <= start b) (insert_by_start s l).
Proof.
  induction 1 as [|x l Hl IH Hhd]; simpl.
  { by repeat constructor. }
  destruct (start s <=? start x) eqn:Hle.
  - constructor; [by constructor|]. constructor. lia.
  - constructor; [done|].
    destruct Hhd as [|y l Hxy]; simpl.
    + constructor. lia.
    + destruct (start s <=? start y); constructor; lia.
Qed.

Lemma sort_by_start_sorted l :
  Sorted (fun a b => start a <= start b) (sort_by_start l).
Proof.
  induction l as [|s l IH]; simpl; [constructor|].
  by apply insert_by_start_sorted.
Qed.

(** ** Adding sessions to one task *)

Lemma extends_refl acc : extends acc acc.
Proof. split; [done | tauto]. Qed.

Lemma extends_trans acc1 acc2 acc3 :
  extends acc1 acc2 -> extends acc2 acc3 -> extends acc1 acc3.
Proof.
  intros [Hp1 Hn1] [Hp2 Hn2]. split; [by etrans|].
  intros Ht Hnd. destruct (Hn1 Ht Hnd). by apply Hn2.
Qed.

Lemma add_session_extends acc s : extends acc (add_session acc s).
Proof.
  unfold add_session. destruct (decide (start s ∈ acc.2)) as [|Hnew].
  { apply extends_refl. }
  split; cbn [fst snd]; [by apply prefix_app_r|].
  intros Ht Hnd. unfold tracks in *. cbn [fst snd] in *.
  rewrite fmap_app. change (start <$> [s]) with [start s]. split.
  - intros x. rewrite elem_of_app, elem_of_union, (Ht x).
    by rewrite elem_of_singleton, list_elem_of_singleton.
  - apply NoDup_app. split; [done|]. split.
    + intros x Hx. rewrite list_elem_of_singleton. intros ->.
      apply Hnew. by apply Ht.
    + apply NoDup_singleton.
Qed.

Lemma fold_add_session_extends new acc :
  extends acc (fold_left add_session new acc).
Proof.
  revert acc. induction new as [|s new IH]; intros acc; simpl.
  { apply extends_refl. }
  eapply extends_trans; [apply add_session_extends | apply IH].
Qed.

Lemma add_days_extends utcoffset spec days acc acc' :
  returns (add_days utcoffset spec days acc) acc' -> extends acc acc'.
Proof.
  revert acc. induction days as [|d days IH]; intros acc H; simpl in H.
  { inv_returns H. apply extends_refl. }
  inv_returns H. destruct (negb _); [by apply IH|].
  inv_returns H. inv_returns H. apply IH in H.
  eapply extends_trans; [apply fold_add_session_extends | exact H].
Qed.

(** ** The tasks of the document *)

Lemma grows_refl t : grows t t.
Proof. unfold grows. by repeat split. Qed.

Lemma grows_trans t1 t2 t3 : grows t1 t2 -> grows t2 t3 -> grows t1 t3.
Proof.
  intros (Hi1 & Hn1 & Hp1 & Hd1) (Hi2 & Hn2 & Hp2 & Hd2).
  unfold grows. repeat split; [congruence | congruence | by etrans | auto].
Qed.

Lemma grows_all_refl tasks : Forall2 grows tasks tasks.
Proof. induction tasks; constructor; [apply grows_refl | done]. Qed.

Section DriverProperties.

Variable utcoffset : Z -> Z.

Lemma add_sessions_grows days tasks ref spec tasks' :
  returns (add_sessions utcoffset days tasks ref spec) tasks' ->
  Forall2 grows tasks tasks'.
Proof.
  unfold add_sessions. destruct (tasks !! ref) as [task|] eqn:Hlook.
  2: { intros H. inv_returns H. apply grows_all_refl. }
  intros H. inv_returns H. inv_returns H.
  apply add_days_extends in Hdraw. destruct Hdraw as [Hpre Hnd].
  rewrite <- (list_insert_id tasks ref task Hlook) at 1.
  apply Forall2_insert; [apply grows_all_refl|].
  unfold grows. simpl in *. repeat split; [done|].
  intros Hdistinct. apply Hnd; [|done].
  intros x. simpl. apply elem_of_list_to_set.
Qed.

Lemma seed_each_grows days by_name specs tasks tasks' :
  returns (seed_each utcoffset days by_name specs tasks) tasks' ->
  Forall2 grows tasks tasks'.
Proof.
  revert tasks. induction specs as [|[nm spec] specs IH]; intros tasks H.
  { simpl in H. inv_returns H. apply grows_all_refl. }
  simpl in H. destruct (by_name !! nm) as [ref|]; [|by apply IH].
  inv_returns H. apply add_sessions_grows in Hdraw. apply IH in H.
  eapply Forall2_trans; [apply grows_trans | exact Hdraw | exact H].
Qed.

(** The first loop only appends tasks, each with no session. *)
Lemma create_missing_app uuids specs tasks by_name :
  exists extra,
    (create_missing uuids specs tasks by_name).1 = tasks ++ extra /\
    Forall (fun t => sessions t = []) extra.
Proof.
  revert uuids tasks by_name.
  induction specs as [|[nm spec] specs IH]; intros uuids tasks by_name.
  { exists []. simpl. by rewrite app_nil_r. }
  simpl. destruct (by_name !! nm); [apply IH|].
  destruct (IH (fun i => uuids (S i)) (tasks ++ [mkTask (uuids O) nm []])
               (<[nm := length tasks]> by_name)) as (extra & -> & Hextra).
  exists (mkTask (uuids O) nm [] :: extra). rewrite <- app_assoc.
  split; [done|]. by constructor.
Qed.

(** The shape of a run: the tasks of the document followed by the created
    ones, each grown by [add_sessions] and then sorted. *)
Lemma seed_inv today uuids tasks result :
  returns (seed utcoffset today uuids tasks) result ->
  exists extra grown,
    Forall (fun t => sessions t = []) extra /\
    Forall2 grows (tasks ++ extra) grown /\
    result = sort_sessions <$> grown.
Proof.
  unfold seed. intros H. inv_returns H. inv_returns H. inv_returns H.
  destruct (create_missing_app uuids SEED_TASKS tasks
              (index_tasks 0 tasks ∅)) as (extra & Happ & Hextra).
  rewrite Happ in Hdraw.
  apply seed_each_grows in Hdraw, Hdraw0.
  exists extra, a0. split; [done|]. split; [|done].
  eapply Forall2_trans; [apply grows_trans | exact Hdraw | exact Hdraw0].
Qed.

Lemma grows_names tasks tasks' :
  Forall2 grows tasks tasks' -> name <$> tasks' = name <$> tasks.
Proof.
  induction 1 as [|t t' l l' (_ & Hname & _) _ IH]; [done|].
  by rewrite !fmap_cons, Hname, IH.
Qed.

Lemma seed_names today uuids tasks result :
  returns (seed utcoffset today uuids tasks) result ->
  name <$> result =
  name <$> (create_missing uuids SEED_TASKS tasks
              (index_tasks 0 tasks ∅)).1.
Proof.
  unfold seed. intros H. inv_returns H. inv_returns H. inv_returns H.
  apply seed_each_grows, grows_names in Hdraw, Hdraw0.
  rewrite <- Hdraw, <- Hdraw0, <- list_fmap_compose.
  by apply list_fmap_ext.
Qed.

(** C1 (additive only).  A run of the seeding transformation keeps every
    task of the document at its place, with its id and its name, and every
    session of that task is among the task's sessions afterwards (as often
    as before). *)
Theorem seed_additive today uuids tasks g (i : nat) t :
  tasks !! i = Some t ->
  exists t',
    (seed utcoffset today uuids tasks g).1 !! i = Some t' /\
    id t' = id t /\ name t' = name t /\
    sessions t ⊆+ sessions t' /\
    (forall s, s ∈ sessions t -> s ∈ sessions t').
Proof.
  intros Hlook.
  pose proof (returns_run (seed utcoffset today uuids tasks) g) as H.
  apply seed_inv in H. destruct H as (extra & grown & _ & Hgrown & ->).
  eapply Forall2_lookup_l in Hgrown; [|by apply lookup_app_l_Some].
  destruct Hgrown as (t2 & Hlook2 & Hid & Hname & Hpre & _).
  exists (sort_sessions t2). rewrite list_lookup_fmap, Hlook2.
  assert (sessions t ⊆+ sessions (sort_sessions t2)) as Hsub.
  { simpl. rewrite sort_by_start_perm.
    destruct Hpre as [k ->]. by apply submseteq_inserts_r. }
  repeat split; [done | done | done |].
  intros s Hs. by eapply elem_of_submseteq.
Qed.

(** C3, amended (distinct starts).  After a run of the seeding
    transformation, a task of the resulting document has no two sessions
    with the same start if the run created it, or if it had no two such
    sessions before the run.  ([sessions_at tasks i] is empty for a task
    that the run created.) *)
Theorem seed_distinct_starts today uuids tasks g (i : nat) :
  NoDup (start <$> sessions_at tasks i) ->
  NoDup (start <$> sessions_at (seed utcoffset today uuids tasks g).1 i).
Proof.
  intros Hold.
  pose proof (returns_run (seed utcoffset today uuids tasks) g) as H.
  apply seed_inv in H. destruct H as (extra & grown & Hextra & Hgrown & ->).
  unfold sessions_at in *. rewrite list_lookup_fmap.
  destruct ((tasks ++ extra) !! i) as [t0|] eqn:Ht0.
  - destruct (Forall2_lookup_l _ _ _ _ _ Hgrown Ht0)
      as (t2 & -> & _ & _ & _ & Hnd).
    cbn. rewrite sort_by_start_perm. apply Hnd.
    apply lookup_app_Some in Ht0.
    destruct Ht0 as [Ht0 | [Hlen Ht0]]; [by rewrite Ht0 in Hold|].
    apply list_elem_of_lookup_2 in Ht0.
    rewrite (proj1 (Forall_forall _ _) Hextra t0 Ht0). apply NoDup_nil_2.
  - assert (grown !! i = None) as ->; [|apply NoDup_nil_2].
    apply lookup_ge_None. apply lookup_ge_None in Ht0.
    by rewrite <- (Forall2_length _ _ _ Hgrown).
Qed.

(** C6 (sorted).  After a run of the seeding transformation the session
    list of every task of the document is in non-decreasing order of
    [start]. *)
Theorem seed_sorted today uuids tasks g :
  Forall (fun t => Sorted (fun a b => start a <= start b) (sessions t))
         (seed utcoffset today uuids tasks g).1.
Proof.
  pose proof (returns_run (seed utcoffset today uuids tasks) g) as H.
  apply seed_inv in H. destruct H as (extra & grown & _ & _ & ->).
  apply Forall_fmap, Forall_forall. intros t _. simpl.
  apply sort_by_start_sorted.
Qed.

(** C7 (empty document).  Seeding a document with no task gives exactly
    five tasks, named "deep work", "email & slack", "code review",
    "meetings" and "planning" in this order; none has a name of
    [EXISTING_SEEDS]. *)
Theorem seed_empty today uuids g :
  let result := (seed utcoffset today uuids [] g).1 in
  name <$> result =
    ["deep work"; "email & slack"; "code review"; "meetings";
     "planning"]%string /\
  length result = 5%nat /\
  Forall (fun t => name t ∉ EXISTING_SEEDS.*1) result.
Proof.
  intros result.
  pose proof (returns_run (seed utcoffset today uuids []) g) as H.
  apply seed_names in H. fold result in H.
  change (name <$> result =
          ["deep work"; "email & slack"; "code review"; "meetings";
           "planning"]%string) in H.
  split; [done|]. split.
  { by rewrite <- (length_fmap name), H. }
  assert (Forall (fun nm : string => nm ∉ EXISTING_SEEDS.*1)
            (name <$> result)) as Hnames.
  { rewrite H.
    repeat (apply Forall_cons; split); try apply Forall_nil_2;
      intros Hin; apply list_elem_of_In in Hin; simpl in Hin;
      intuition discriminate. }
  apply Forall_forall. intros t Ht.
  eapply (proj1 (Forall_forall _ _) Hnames).
  by apply list_elem_of_fmap_2.
Qed.

(** C8 (user not found).  When no row of [users] has the email, [main]
    prints the not-found message and returns; the database is as before
    (and nothing was drawn). *)
Theorem main_user_not_found today uuids args database url g :
  db args = Some url ->
  List.find (fun row => String.eqb row.2 (email args)) (users database)
    = None ->
  main utcoffset today uuids args database g =
  (Returned (Line ("No user found with email: " ++ email args)) database,
   g).
Proof. intros Hdb Hfind. unfold main. by rewrite Hdb, Hfind. Qed.

End DriverProperties.

(** ** The references of [by_name] *)

Lemma index_tasks_valid pre tasks (by_name : gmap string nat) :
  refs_valid by_name (pre ++ tasks) ->
  refs_valid (index_tasks (length pre) tasks by_name) (pre ++ tasks).
Proof.
  revert pre by_name.
  induction tasks as [|t tasks IH]; intros pre by_name Hvalid; [done|].
  simpl. specialize (IH (pre ++ [t]) (<[name t := length pre]> by_name)).
  rewrite length_app, Nat.add_1_r, <- app_assoc in IH. apply IH.
  intros nm i. rewrite lookup_insert. case_decide as Hnm.
  - intros [= <-]. exists t.
    split; [by apply list_lookup_middle | done].
  - apply Hvalid.
Qed.

Lemma create_missing_valid uuids specs tasks (by_name : gmap string nat) :
  refs_valid by_name tasks ->
  let created := create_missing uuids specs tasks by_name in
  refs_valid created.2 created.1 /\
  (forall nm, is_Some (by_name !! nm) -> is_Some (created.2 !! nm)) /\
  (forall nm, nm ∈ specs.*1 -> is_Some (created.2 !! nm)).
Proof.
  revert uuids tasks by_name.
  induction specs as [|[nm spec] specs IH]; intros uuids tasks by_name Hvalid.
  { simpl. split; [done|]. split; [done|]. intros nm Hnm.
    by apply elem_of_nil in Hnm. }
  simpl. destruct (by_name !! nm) as [ref|] eqn:Hlook.
  - destruct (IH uuids tasks by_name Hvalid) as (Hv & Hkeep & Hall).
    split; [done|]. split; [done|].
    intros nm' Hnm'. apply elem_of_cons in Hnm'.
    destruct Hnm' as [-> | Hnm']; [|by apply Hall].
    apply Hkeep. by rewrite Hlook.
  - destruct (IH (fun i => uuids (S i)) (tasks ++ [mkTask (uuids O) nm []])
                (<[nm := length tasks]> by_name)) as (Hv & Hkeep & Hall).
    { intros nm' i. rewrite lookup_insert. case_decide as Hnm.
      - intros [= <-]. exists (mkTask (uuids O) nm []).
        split; [by apply list_lookup_middle | done].
      - intros Hi. destruct (Hvalid nm' i Hi) as (t & Ht & Hname).
        exists t. split; [by apply lookup_app_l_Some | done]. }
    split; [done|]. split.
    + intros nm' Hsome. apply Hkeep. rewrite lookup_insert.
      by case_decide.
    + intros nm' Hnm'. apply elem_of_cons in Hnm'.
      destruct Hnm' as [-> | Hnm']; [|by apply Hall].
      apply Hkeep. rewrite lookup_insert. by case_decide.
Qed.

Lemma grows_refs_valid (by_name : gmap string nat) tasks tasks' :
  Forall2 grows tasks tasks' -> refs_valid by_name tasks ->
  refs_valid by_name tasks'.
Proof.
  intros Hgrows Hvalid nm i Hi.
  destruct (Hvalid nm i Hi) as (t & Ht & Hname).
  destruct (Forall2_lookup_l _ _ _ _ _ Hgrows Ht) as (t' & Ht' & _ & Hn & _).
  exists t'. split; [done | congruence].
Qed.

(** In [main], [by_name[spec["name"]]] finds a task of [data["tasks"]]
    for every entry of [SEED_TASKS]: no KeyError, no dangling reference. *)
Lemma create_missing_refs uuids tasks nm :
  let created :=
    create_missing uuids SEED_TASKS tasks (index_tasks 0 tasks ∅) in
  nm ∈ SEED_TASKS.*1 ->
  exists ref t, created.2 !! nm = Some ref /\
                created.1 !! ref = Some t /\ name t = nm.
Proof.
  intros created Hnm.
  destruct (create_missing_valid uuids SEED_TASKS tasks
              (index_tasks 0 tasks ∅)) as (Hv & _ & Hall).
  { apply (index_tasks_valid [] tasks ∅). intros nm' i.
    by rewrite lookup_empty. }
  destruct (Hall nm Hnm) as [ref Href]. fold created in Hv, Href.
  destruct (Hv nm ref Href) as (t & Ht & Hname). by exists ref, t.
Qed.

(** ** The hours that the driver asks for *)

(** Every duration that [add_sessions] draws, for a specification of
    [SEED_TASKS] or [EXISTING_SEEDS], is 0.3 hours or more. *)
Lemma spec_hours_ge nm spec total_hours :
  (nm, spec) ∈ SEED_TASKS ++ EXISTING_SEEDS ->
  returns (uniform (min_h spec) (max_h spec)) total_hours ->
  (3 # 10 <= total_hours)%Q.
Proof.
  intros Hin H. apply list_elem_of_In in Hin. simpl in Hin.
  repeat (destruct Hin as [[= <- <-] | Hin];
          [apply uniform_range in H; [simpl in H; lra | by simpl] |]).
  done.
Qed.

(** [days[0]] in the summary of [main] exists: a weekday lies among the
    last three days. *)
Lemma past_weekdays_nonempty today : past_weekdays today 2 <> [].
Proof.
  unfold past_weekdays, minus_days, minus_weeks.
  assert (exists x, today - 3 <= x <= today - 1 /\ weekday x < 5)
    as (x & Hx & Hwd).
  { unfold weekday.
    destruct (Z_lt_le_dec ((today - 1 + 6) mod 7) 5) as [Hlt | Hge].
    - exists (today - 1). lia.
    - destruct (Z_lt_le_dec ((today - 2 + 6) mod 7) 5) as [Hlt' | Hge'].
      + exists (today - 2). lia.
      + exists (today - 3). split; [lia|].
        revert Hge Hge'. Z.div_mod_to_equations. lia. }
  intros Hnil.
  assert (x ∈ weekdays_until (today - 1) (today - 7 * 2)) as Hin
    by (apply weekdays_until_spec; lia).
  rewrite Hnil in Hin. by apply elem_of_nil in Hin.
Qed.

(** ** The properties on sample inputs *)

Lemma seed_additive_witness :
  Sample.doc !! 0%nat = Some (mkTask "id-1" "React Query"
                                [mkSession 10 (Some 20);
                                 mkSession 30 (Some 40)]) /\
  exists t',
    (seed Sample.zone Sample.today Sample.uuids Sample.doc Sample.tape).1
      !! 0%nat = Some t' /\
    id t' = "id-1"%string /\ name t' = "React Query"%string /\
    [mkSession 10 (Some 20); mkSession 30 (Some 40)] ⊆+ sessions t' /\
    (forall s, s ∈ [mkSession 10 (Some 20); mkSession 30 (Some 40)] ->
               s ∈ sessions t').
Proof.
  split; [reflexivity|].
  apply (seed_additive Sample.zone Sample.today Sample.uuids Sample.doc
           Sample.tape 0
           (mkTask "id-1" "React Query"
              [mkSession 10 (Some 20); mkSession 30 (Some 40)])).
  reflexivity.
Defined.

Lemma gen_sessions_in_window_witness :
  (3 # 10 <= 1)%Q /\
  mkSession 1793708760000 (Some 1793711100000)
    ∈ (gen_sessions Sample.zone Sample.day 1 Sample.tape).1 /\
  exists e,
    end_ (mkSession 1793708760000 (Some 1793711100000)) = Some e /\
    to_ms Sample.zone Sample.day 9 0
      <= start (mkSession 1793708760000 (Some 1793711100000)) /\
    e <= to_ms Sample.zone Sample.day 18 30 /\
    (to_ms Sample.zone Sample.day 9 0 < to_ms Sample.zone Sample.day 18 30 ->
     start (mkSession 1793708760000 (Some 1793711100000)) < e).
Proof.
  assert (3 # 10 <= 1)%Q as Hh by (unfold Qle; simpl; lia).
  assert (mkSession 1793708760000 (Some 1793711100000)
            ∈ (gen_sessions Sample.zone Sample.day 1 Sample.tape).1) as Hin
    by (vm_compute; apply list_elem_of_further, list_elem_of_here).
  split; [exact Hh|]. split; [exact Hin|].
  exact (gen_sessions_in_window Sample.zone Sample.day 1 Sample.tape
           _ Hh Hin).
Defined.

(** C2, as stated, fails on a day whose 09:00 comes after its 18:30 in
    epoch time: the one session returned starts at [day_start] and ends at
    [day_end], half an hour earlier. *)
Lemma gen_sessions_inverted_window :
  (3 # 10 <= 1)%Q /\
  to_ms Sample.zone_1947 Sample.day_1947 9 0 = -725814000000 /\
  to_ms Sample.zone_1947 Sample.day_1947 18 30 = -725815800000 /\
  (gen_sessions Sample.zone_1947 Sample.day_1947 1 Sample.tape).1
    = [mkSession (-725814000000) (Some (-725815800000))] /\
  ~ (-725814000000 < -725815800000).
Proof.
  split; [unfold Qle; simpl; lia|].
  split; [reflexivity|]. split; [reflexivity|].
  split; [vm_compute; reflexivity | lia].
Qed.

(** C3, as stated, fails: a task that had two sessions with the same start
    before the run has them after it, next to the sessions that the run
    added. *)
Lemma seed_keeps_duplicate_starts :
  exists t,
    (seed Sample.zone Sample.today Sample.uuids Sample.dup_doc Sample.tape).1
      !! 0%nat = Some t /\
    sessions t !! 0%nat = Some (mkSession 10 (Some 20)) /\
    sessions t !! 1%nat = Some (mkSession 10 (Some 30)) /\
    (10 < length (sessions t))%nat /\
    ~ NoDup (start <$> sessions t).
Proof.
  eexists. split; [vm_compute; reflexivity|].
  split; [reflexivity|]. split; [reflexivity|].
  split; [simpl; lia|].
  intros Hnodup. simpl in Hnodup. apply NoDup_cons in Hnodup.
  destruct Hnodup as [Hnotin _]. apply Hnotin. apply list_elem_of_here.
Qed.

Lemma seed_distinct_starts_witness :
  NoDup (start <$> sessions_at Sample.mixed_doc 1) /\
  NoDup (start <$>
           sessions_at
             (seed Sample.zone Sample.today Sample.uuids Sample.mixed_doc
                Sample.tape).1 1).
Proof.
  assert (NoDup (start <$> sessions_at Sample.mixed_doc 1)) as Hold.
  { cbn. apply NoDup_cons. split; [|apply NoDup_singleton].
    rewrite list_elem_of_singleton. lia. }
  split; [exact Hold|].
  exact (seed_distinct_starts Sample.zone Sample.today Sample.uuids
           Sample.mixed_doc Sample.tape 1 Hold).
Defined.

Lemma main_user_not_found_witness :
  db Sample.args = Some "postgresql://localhost/tt"%string /\
  List.find (fun row => String.eqb row.2 (email Sample.args))
    (users Sample.database) = None /\
  main Sample.zone Sample.today Sample.uuids Sample.args Sample.database
    Sample.tape =
  (Returned (Line "No user found with email: nobody@example.com")
     Sample.database, Sample.tape).
Proof.
  split; [reflexivity|]. split; [reflexivity|].
  exact (main_user_not_found Sample.zone Sample.today Sample.uuids
           Sample.args Sample.database "postgresql://localhost/tt"
           Sample.tape eq_refl eq_refl).
Defined.

Lemma gen_sessions_budget_witness :
  (0 <= 1)%Q /\
  Forall (fun s => is_Some (end_ s))
    (gen_sessions Sample.zone Sample.day 1 Sample.tape).1 /\
  total_duration (gen_sessions Sample.zone Sample.day 1 Sample.tape).1
    <= int (1 * 3600000).
Proof.
  assert (0 <= 1)%Q as Hh by (unfold Qle; simpl; lia).
  split; [exact Hh|].
  exact (gen_sessions_budget Sample.zone Sample.day 1 Sample.tape Hh).
Defined.

Lemma gen_sessions_spaced_witness :
  (3 # 10 <= 1)%Q /\
  (0 < 1)%nat /\
  (gen_sessions Sample.zone Sample.day 1 Sample.tape).1 !! 0%nat
    = Some (mkSession 1793707200000 (Some 1793708460000)) /\
  (gen_sessions Sample.zone Sample.day 1 Sample.tape).1 !! 1%nat
    = Some (mkSession 1793708760000 (Some 1793711100000)) /\
  exists e,
    end_ (mkSession 1793707200000 (Some 1793708460000)) = Some e /\
    e + 300000 <= start (mkSession 1793708760000 (Some 1793711100000)) /\
    start (mkSession 1793707200000 (Some 1793708460000))
      < start (mkSession 1793708760000 (Some 1793711100000)).
Proof.
  assert (3 # 10 <= 1)%Q as Hh by (unfold Qle; simpl; lia).
  assert (0 < 1)%nat as Hij by lia.
  assert ((gen_sessions Sample.zone Sample.day 1 Sample.tape).1 !! 0%nat
          = Some (mkSession 1793707200000 (Some 1793708460000))) as Ha
    by (vm_compute; reflexivity).
  assert ((gen_sessions Sample.zone Sample.day 1 Sample.tape).1 !! 1%nat
          = Some (mkSession 1793708760000 (Some 1793711100000))) as Hb
    by (vm_compute; reflexivity).
  split; [exact Hh|]. split; [exact Hij|].
  split; [exact Ha|]. split; [exact Hb|].
  exact (gen_sessions_spaced Sample.zone Sample.day 1 Sample.tape 0 1 _ _
           Hh Hij Ha Hb).
Defined.

(** * Further properties *)

(** ** More on the weekday enumerator *)

Lemma weekdays_until_step yesterday d :
  weekdays_until yesterday d =
  if decide (d <= yesterday)
  then (if weekday d <? 5 then [d] else []) ++ weekdays_until yesterday (d + 1)
  else [].
Proof.
  funelim (weekdays_until yesterday d).
  - clear H Heqcall. case_decide; [|lia]. by destruct (weekday d <? 5).
  - case_decide; [lia | done].
Qed.

Lemma weekday_shift d k : weekday (d + k) = (weekday d + k) mod 7.
Proof.
  unfold weekday. replace (d + k + 6) with (d + 6 + k) by lia.
  by rewrite Zplus_mod_idemp_l.
Qed.

(** Seven consecutive days hold five weekdays. *)
Lemma weekdays_until_week yesterday d :
  d + 6 <= yesterday ->
  length (weekdays_until yesterday d) =
  (5 + length (weekdays_until yesterday (d + 7)%Z))%nat.
Proof.
  intros Hle.
  rewrite (weekdays_until_step yesterday d).
  rewrite (weekdays_until_step yesterday (d + 1)).
  rewrite (weekdays_until_step yesterday (d + 1 + 1)).
  rewrite (weekdays_until_step yesterday (d + 1 + 1 + 1)).
  rewrite (weekdays_until_step yesterday (d + 1 + 1 + 1 + 1)).
  rewrite (weekdays_until_step yesterday (d + 1 + 1 + 1 + 1 + 1)).
  rewrite (weekdays_until_step yesterday (d + 1 + 1 + 1 + 1 + 1 + 1)).
  repeat (case_decide; [|lia]).
  replace (d + 1 + 1 + 1 + 1 + 1 + 1 + 1) with (d + 7) by lia.
  replace (d + 1 + 1 + 1 + 1 + 1 + 1) with (d + 6) by lia.
  replace (d + 1 + 1 + 1 + 1 + 1) with (d + 5) by lia.
  replace (d + 1 + 1 + 1 + 1) with (d + 4) by lia.
  replace (d + 1 + 1 + 1) with (d + 3) by lia.
  replace (d + 1 + 1) with (d + 2) by lia.
  rewrite !weekday_shift.
  pose proof (Z.mod_pos_bound (d + 6) 7 ltac:(lia)) as Hw.
  fold (weekday d) in Hw.
  assert (weekday d = 0 \/ weekday d = 1 \/ weekday d = 2 \/ weekday d = 3 \/
          weekday d = 4 \/ weekday d = 5 \/ weekday d = 6) as Hcase by lia.
  rewrite !length_app.
  destruct Hcase as [-> | [-> | [-> | [-> | [-> | [-> | ->]]]]]];
    reflexivity.
Qed.

Lemma weekdays_until_weeks (n : nat) d :
  length (weekdays_until (d + 7 * Z.of_nat n - 1) d) = (5 * n)%nat.
Proof.
  revert d. induction n as [|n IH]; intros d.
  { rewrite weekdays_until_step. case_decide; [lia | done]. }
  rewrite weekdays_until_week by lia.
  replace (d + 7 * Z.of_nat (S n) - 1) with (d + 7 + 7 * Z.of_nat n - 1)
    by lia.
  rewrite IH. lia.
Qed.

Lemma weekdays_until_increasing yesterday d :
  StronglySorted Z.lt (weekdays_until yesterday d).
Proof.
  funelim (weekdays_until yesterday d); [|constructor].
  destruct (weekday d <? 5); [|done].
  constructor; [done|].
  apply Forall_forall. intros x Hx. apply weekdays_until_spec in Hx. lia.
Qed.

(** X1 (the weekdays of any number of weeks).  A date is in
    [past_weekdays(n_weeks)] exactly when it lies from [n_weeks] weeks
    before today up to yesterday and falls on Monday to Friday. *)
Theorem past_weekdays_spec today n_weeks d :
  d ∈ past_weekdays today n_weeks <->
  (today - 7 * n_weeks <= d <= today - 1 /\ 0 <= weekday d <= 4).
Proof.
  unfold past_weekdays, minus_days, minus_weeks.
  rewrite weekdays_until_spec.
  pose proof (Z.mod_pos_bound (d + 6) 7 ltac:(lia)).
  unfold weekday in *. lia.
Qed.

(** X2 (how many).  [past_weekdays(n_weeks)] returns five dates for each
    week: [5 * n_weeks] dates, and none when [n_weeks] is zero or less. *)
Theorem past_weekdays_length today n_weeks :
  Z.of_nat (length (past_weekdays today n_weeks)) = 5 * Z.max 0 n_weeks.
Proof.
  unfold past_weekdays, minus_days, minus_weeks.
  destruct (Z_le_gt_dec n_weeks 0) as [Hle | Hgt].
  - rewrite weekdays_until_step. case_decide; [lia|]. simpl. lia.
  - pose proof (weekdays_until_weeks (Z.to_nat n_weeks)
                  (today - 7 * n_weeks)) as Hlen.
    replace (today - 7 * n_weeks + 7 * Z.of_nat (Z.to_nat n_weeks) - 1)
      with (today - 1) in Hlen by lia.
    rewrite Hlen. lia.
Qed.

(** X3 (ascending).  The dates of [past_weekdays(n_weeks)] are in strictly
    increasing order: the first is the earliest and none comes twice. *)
Theorem past_weekdays_increasing today n_weeks :
  StronglySorted Z.lt (past_weekdays today n_weeks).
Proof. unfold past_weekdays. apply weekdays_until_increasing. Qed.

(** ** More on the session generator *)

(** One iteration of the loop, with the reason of a stop: the budget is
    used up, or the next start would be at or after [day_end]. *)
Lemma gen_loop_step_why day_end k cursor remaining l :
  returns (gen_loop day_end (S k) cursor remaining []) l ->
  exists chunk,
    (k = O /\ chunk = remaining \/
     k <> O /\ exists u, (35 # 100 <= u)%Q /\ (u <= 60 # 100)%Q /\
                         chunk = int (inject_Z remaining * u)) /\
    let end_ts := Z.min (cursor + chunk) day_end in
    let remaining' := remaining - (end_ts - cursor) in
    (l = [mkSession cursor (Some end_ts)] /\
     (remaining' <= 0 \/
      exists gap, 5 <= gap <= 25 /\ day_end <= end_ts + gap * 60000) \/
     exists gap l',
       5 <= gap <= 25 /\ 0 < remaining' /\
       end_ts + gap * 60000 < day_end /\
       returns (gen_loop day_end k (end_ts + gap * 60000) remaining' []) l' /\
       l = mkSession cursor (Some end_ts) :: l').
Proof.
  intros H. simpl in H. inv_returns H. exists a. split.
  { destruct k.
    - left. inv_returns Hdraw. done.
    - right. split; [done|]. inv_returns Hdraw. inv_returns Hdraw.
      apply uniform_range in Hdraw0; [|done]. exists a0. tauto. }
  simpl. destruct (_ <=? 0) eqn:Hrem.
  { left. inv_returns H. split; [done|]. left. lia. }
  inv_returns H. apply randint_range in Hdraw0; [|lia].
  destruct (_ >=? day_end) eqn:Hcur.
  { left. inv_returns H. split; [done|]. right. exists a0. lia. }
  right. destruct H as [g H]. rewrite gen_loop_app in H. simpl in H.
  exists a0, (gen_loop day_end k (Z.min (cursor + a) day_end + a0 * 60000)
                (remaining - (Z.min (cursor + a) day_end - cursor)) [] g).1.
  repeat split; [lia | lia | lia | lia | apply returns_run | done].
Qed.

Lemma gen_loop_exact day_end k cursor remaining l :
  0 <= remaining -> k <> O ->
  returns (gen_loop day_end k cursor remaining []) l ->
  total_duration l = remaining \/
  exists s e, last l = Some s /\ end_ s = Some e /\ day_end - 1500000 <= e.
Proof.
  revert cursor remaining l.
  induction k as [|k IH]; intros cursor remaining l Hrem Hk H; [done|].
  apply gen_loop_step_why in H. destruct H as (chunk & Hchunk & H).
  assert (0 <= chunk <= remaining /\ (k = O -> chunk = remaining))
    as [Hc Hlast].
  { destruct Hchunk as [[_ ->] | (Hk' & u & Hlo & Hhi & ->)]; [lia|].
    pose proof (chunk_bounds remaining u Hrem Hlo Hhi). simpl in *. lia. }
  simpl in H.
  destruct H as [[-> Hwhy] | (gap & l' & Hgap & Hpos & Hnext & H & ->)].
  - destruct Hwhy as [Hused | (gap & Hgap & Hend)].
    + left. unfold total_duration, duration. simpl. lia.
    + right. eexists _, _. split; [done|]. split; [done|]. lia.
  - destruct k as [|k]; [specialize (Hlast eq_refl); lia|].
    apply IH in H; [|lia|done].
    destruct H as [Hsum | (s & e & Hs & He & Hnear)].
    + left. unfold total_duration, duration in *. simpl. lia.
    + right. exists s, e. rewrite last_cons, Hs. done.
Qed.

Section GeneratorEdges.

Variable utcoffset : Z -> Z.

(** X4 (the whole budget, or the end of the window).  For a target of zero
    or more, the durations of the sessions that [gen_sessions] returns add up
    to exactly [int(total_hours * 3_600_000)], unless the last session ends
    in the last 25 minutes (1500000 ms) before [day_end] or later. *)
Theorem gen_sessions_exact d total_hours g :
  (0 <= total_hours)%Q ->
  let l := (gen_sessions utcoffset d total_hours g).1 in
  total_duration l = int (total_hours * 3600000) \/
  exists s e, last l = Some s /\ end_ s = Some e /\
              to_ms utcoffset d 18 30 - 1500000 <= e.
Proof.
  intros Hh l.
  pose proof (returns_run (gen_sessions utcoffset d total_hours) g) as H.
  apply gen_sessions_inv in H. simpl in H.
  destruct H as (cursor & n & _ & Hn & H).
  apply gen_loop_exact in H; [done | | lia]. apply int_nonneg. nra.
Qed.

(** X5 (a target below one millisecond).  When
    [int(total_hours * 3_600_000)] is 0 and 09:00 of the day does not come
    after its 18:30, [gen_sessions] returns exactly one session, of zero
    length: its end equals its start, which lies in the window. *)
Theorem gen_sessions_zero d total_hours g :
  int (total_hours * 3600000) = 0 ->
  to_ms utcoffset d 9 0 <= to_ms utcoffset d 18 30 ->
  exists c,
    (gen_sessions utcoffset d total_hours g).1 = [mkSession c (Some c)] /\
    to_ms utcoffset d 9 0 <= c <= to_ms utcoffset d 18 30.
Proof.
  intros Hzero Hwin.
  pose proof (returns_run (gen_sessions utcoffset d total_hours) g) as H.
  apply gen_sessions_inv in H. simpl in H.
  destruct H as (cursor & n & Hcur & Hn & H). rewrite Hzero in H, Hcur.
  destruct n as [|n]; [lia|].
  apply (gen_loop_step utcoffset) in H. destruct H as (chunk & Hchunk & H).
  assert (chunk = 0) as ->.
  { destruct Hchunk as [[_ ->] | (_ & u & Hlo & Hhi & ->)]; [done|].
    pose proof (chunk_bounds 0 u ltac:(lia) Hlo Hhi). simpl in *. lia. }
  simpl in H. exists cursor. split; [|lia].
  destruct H as [-> | (gap & l' & _ & Hpos & _)]; [|lia].
  replace (Z.min (cursor + 0) (to_ms utcoffset d 18 30)) with cursor by lia.
  done.
Qed.

(** X6 (the first start).  The list that [gen_sessions] returns is not
    empty, and its first session starts at [day_start] or later and at
    [max(day_start, day_end - total_ms - 1_800_000)] or earlier. *)
Theorem gen_sessions_first_start d total_hours g :
  exists s rest,
    (gen_sessions utcoffset d total_hours g).1 = s :: rest /\
    to_ms utcoffset d 9 0 <= start s /\
    start s <= Z.max (to_ms utcoffset d 9 0)
                 (to_ms utcoffset d 18 30
                  - int (total_hours * 3600000) - 1800000).
Proof.
  pose proof (returns_run (gen_sessions utcoffset d total_hours) g) as H.
  apply gen_sessions_inv in H. simpl in H.
  destruct H as (cursor & n & Hcur & Hn & H).
  destruct n as [|n]; [lia|].
  apply (gen_loop_step utcoffset) in H. destruct H as (chunk & _ & H). simpl in H.
  destruct H as [-> | (gap & l' & _ & _ & _ & _ & ->)];
    eexists _, _; (split; [done|]); simpl; lia.
Qed.

End GeneratorEdges.

(** ** What a run appends *)

Lemma sublist_keeps_Forall {A} (P : A -> Prop) (l1 l2 : list A) :
  l1 `sublist_of` l2 -> Forall P l2 -> Forall P l1.
Proof.
  induction 1 as [|x l1 l2 _ IH|x l1 l2 _ IH]; intros Hall; [done| |].
  - apply Forall_cons in Hall. destruct Hall as [Hx Hall].
    constructor; [done | by apply IH].
  - apply Forall_cons in Hall. destruct Hall as [_ Hall]. by apply IH.
Qed.

Lemma sublist_total_duration l1 l2 :
  l1 `sublist_of` l2 -> Forall (fun s => 0 <= duration s) l2 ->
  0 <= total_duration l1 <= total_duration l2.
Proof.
  induction 1 as [|x l1 l2 _ IH|x l1 l2 _ IH]; intros Hall.
  - unfold total_duration. simpl. lia.
  - apply Forall_cons in Hall. destruct Hall as [Hx Hall].
    specialize (IH Hall). unfold total_duration in *. simpl. lia.
  - apply Forall_cons in Hall. destruct Hall as [Hx Hall].
    specialize (IH Hall). unfold total_duration in *. simpl. lia.
Qed.

Lemma total_duration_app l1 l2 :
  total_duration (l1 ++ l2) = total_duration l1 + total_duration l2.
Proof.
  induction l1 as [|s l1 IH]; unfold total_duration in *; simpl; lia.
Qed.

Lemma total_duration_perm l1 l2 :
  l1 ≡ₚ l2 -> total_duration l1 = total_duration l2.
Proof.
  induction 1; unfold total_duration in *; simpl; lia.
Qed.

(** The sessions of one day that pass the test on [existing], in order. *)
Lemma fold_add_session_sublist new acc :
  exists kept,
    (fold_left add_session new acc).1 = acc.1 ++ kept /\
    kept `sublist_of` new.
Proof.
  revert acc. induction new as [|s new IH]; intros acc; simpl.
  { exists []. by rewrite app_nil_r. }
  destruct (IH (add_session acc s)) as (kept & -> & Hsub).
  unfold add_session. destruct (decide (start s ∈ acc.2)); cbn [fst].
  - exists kept. split; [done | by apply sublist_cons].
  - exists (s :: kept). rewrite <- app_assoc.
    split; [done | by apply sublist_skip].
Qed.

Lemma appended_nil utcoffset specs days : appended utcoffset specs days [].
Proof. exists []. simpl. split; [done|]. split; [lia | constructor]. Qed.

Lemma appended_specs utcoffset specs specs' days extra :
  (forall x, x ∈ specs -> x ∈ specs') ->
  appended utcoffset specs days extra -> appended utcoffset specs' days extra.
Proof.
  intros Hsub (gens & Hextra & Hlen & Hgens).
  exists gens. split; [done|]. split; [done|].
  eapply Forall_impl; [exact Hgens|].
  intros l (d & nm & spec & Hd & Hspec & Hgen). exists d, nm, spec. auto.
Qed.

Lemma add_days_appended utcoffset nm spec days acc acc' :
  returns (add_days utcoffset spec days acc) acc' ->
  exists extra,
    acc'.1 = acc.1 ++ extra /\ appended utcoffset [(nm, spec)] days extra.
Proof.
  revert acc. induction days as [|d days IH]; intros acc H; simpl in H.
  { inv_returns H. exists []. rewrite app_nil_r.
    split; [done | apply appended_nil]. }
  inv_returns H. destruct (negb _).
  - apply IH in H. destruct H as (extra & -> & gens & Hsub & Hlen & Hgens).
    exists extra. split; [done|]. exists gens. split; [done|].
    split; [simpl; lia|].
    eapply Forall_impl; [exact Hgens|].
    intros l (d' & nm' & spec' & Hd' & Hrest). exists d', nm', spec'.
    split; [by apply list_elem_of_further | done].
  - inv_returns H. inv_returns H. rename a1 into new.
    apply IH in H. destruct H as (extra & -> & gens & Hsub & Hlen & Hgens).
    destruct (fold_add_session_sublist new acc) as (kept & -> & Hkept).
    exists (kept ++ extra). rewrite <- app_assoc. split; [done|].
    exists (new :: gens). split; [by apply sublist_app|].
    split; [simpl; lia|]. constructor.
    + exists d, nm, spec. split; [apply list_elem_of_here|].
      split; [apply list_elem_of_here|]. by exists a0.
    + eapply Forall_impl; [exact Hgens|].
      intros l (d' & nm' & spec' & Hd' & Hrest). exists d', nm', spec'.
      split; [by apply list_elem_of_further | done].
Qed.

Lemma fresh_from_nil old : fresh_from old [].
Proof.
  split; [apply NoDup_nil_2|]. intros x Hx. by apply elem_of_nil in Hx.
Qed.

Lemma fresh_from_app old k1 k2 :
  fresh_from old k1 -> fresh_from (old ++ k1) k2 ->
  fresh_from old (k1 ++ k2).
Proof.
  intros [Hnd1 Hout1] [Hnd2 Hout2]. split.
  - rewrite fmap_app. apply NoDup_app. split; [done|]. split; [|done].
    intros x Hx1 Hx2. apply (Hout2 x Hx2). rewrite fmap_app.
    apply elem_of_app. by right.
  - intros x Hx. rewrite fmap_app in Hx. apply elem_of_app in Hx.
    destruct Hx as [Hx | Hx]; [by apply Hout1|].
    intros Hold. apply (Hout2 x Hx). rewrite fmap_app.
    apply elem_of_app. by left.
Qed.

Lemma add_session_fresh acc s :
  tracks acc ->
  exists kept,
    (add_session acc s).1 = acc.1 ++ kept /\
    tracks (add_session acc s) /\ fresh_from acc.1 kept.
Proof.
  intros Ht. unfold add_session.
  destruct (decide (start s ∈ acc.2)) as [|Hnew].
  { exists []. rewrite app_nil_r.
    split; [done|]. split; [done | apply fresh_from_nil]. }
  exists [s]. cbn [fst snd]. split; [done|]. split.
  - unfold tracks in *. cbn [fst snd]. intros x.
    rewrite fmap_app, elem_of_app, elem_of_union, (Ht x).
    change (start <$> [s]) with [start s].
    by rewrite elem_of_singleton, list_elem_of_singleton.
  - split; [apply NoDup_singleton|]. intros x Hx.
    change (start <$> [s]) with [start s] in Hx.
    apply list_elem_of_singleton in Hx. subst x.
    intros Hold. apply Hnew. by apply Ht.
Qed.

Lemma fold_add_session_fresh new acc :
  tracks acc ->
  exists kept,
    (fold_left add_session new acc).1 = acc.1 ++ kept /\
    tracks (fold_left add_session new acc) /\ fresh_from acc.1 kept.
Proof.
  revert acc. induction new as [|s new IH]; intros acc Ht; simpl.
  { exists []. rewrite app_nil_r.
    split; [done|]. split; [done | apply fresh_from_nil]. }
  destruct (add_session_fresh acc s Ht) as (k1 & Hk1 & Ht1 & Hf1).
  destruct (IH _ Ht1) as (k2 & Hk2 & Ht2 & Hf2).
  exists (k1 ++ k2). rewrite Hk2, Hk1, <- app_assoc.
  split; [done|]. split; [done|].
  apply fresh_from_app; [done|]. by rewrite <- Hk1.
Qed.

Lemma add_days_fresh utcoffset spec days acc acc' :
  tracks acc ->
  returns (add_days utcoffset spec days acc) acc' ->
  exists extra,
    acc'.1 = acc.1 ++ extra /\ tracks acc' /\ fresh_from acc.1 extra.
Proof.
  revert acc. induction days as [|d days IH]; intros acc Ht H; simpl in H.
  { inv_returns H. exists []. rewrite app_nil_r.
    split; [done|]. split; [done | apply fresh_from_nil]. }
  inv_returns H. destruct (negb _); [by apply IH|].
  inv_returns H. inv_returns H. rename a1 into new.
  destruct (fold_add_session_fresh new acc Ht) as (k1 & Hk1 & Ht1 & Hf1).
  destruct (IH _ Ht1 H) as (k2 & Hk2 & Ht2 & Hf2).
  exists (k1 ++ k2). rewrite Hk2, Hk1, <- app_assoc.
  split; [done|]. split; [done|].
  apply fresh_from_app; [done|]. by rewrite <- Hk1.
Qed.

Lemma gained_refl utcoffset specs days names t :
  gained utcoffset specs days names t t.
Proof.
  split; [done|]. split; [done|]. exists []. rewrite app_nil_r.
  split; [done|]. split; [apply appended_nil|].
  split; [apply fresh_from_nil | done].
Qed.

Lemma gained_names utcoffset specs days names names' t t' :
  (forall nm, nm ∈ names -> nm ∈ names') ->
  gained utcoffset specs days names t t' ->
  gained utcoffset specs days names' t t'.
Proof.
  intros Hsub (Hid & Hname & extra & Hs & Happ & Hfresh & Hnil).
  split; [done|]. split; [done|]. exists extra.
  split; [done|]. split; [done|]. split; [done|]. intros Hnot. apply Hnil.
  intros Hin. by apply Hnot, Hsub.
Qed.

Lemma refs_valid_insert (by_name : gmap string nat) tasks ref task task' :
  refs_valid by_name tasks -> tasks !! ref = Some task ->
  name task' = name task -> refs_valid by_name (<[ref := task']> tasks).
Proof.
  intros Hvalid Hlook Hname nm i Hi.
  destruct (Hvalid nm i Hi) as (t & Ht & Hnm).
  destruct (decide (i = ref)) as [-> | Hne].
  - exists task'. rewrite list_lookup_insert_eq by by eapply lookup_lt_Some.
    split; [done | congruence].
  - exists t. by rewrite list_lookup_insert_ne.
Qed.

Lemma seed_each_gained utcoffset table days by_name specs names
    tasks0 tasks tasks' :
  refs_valid by_name tasks ->
  NoDup specs.*1 ->
  (forall nm, nm ∈ specs.*1 -> nm ∉ names) ->
  (forall x, x ∈ specs -> x ∈ table) ->
  Forall2 (gained utcoffset table days names) tasks0 tasks ->
  returns (seed_each utcoffset days by_name specs tasks) tasks' ->
  Forall2 (gained utcoffset table days (names ++ specs.*1)) tasks0 tasks'.
Proof.
  revert names tasks.
  induction specs as [|[nm spec] specs IH];
    intros names tasks Hvalid Hnodup Hfresh Htable Hgained H.
  { simpl in H. inv_returns H. simpl. by rewrite app_nil_r. }
  rewrite fmap_cons in Hnodup, Hfresh. cbn [fst] in Hnodup, Hfresh.
  apply NoDup_cons in Hnodup. destruct Hnodup as [Hnm Hnodup].
  rewrite fmap_cons. cbn [fst].
  replace (names ++ nm :: specs.*1) with ((names ++ [nm]) ++ specs.*1)
    by by rewrite <- app_assoc.
  assert (forall nm', nm' ∈ specs.*1 -> nm' ∉ names ++ [nm]) as Hfresh'.
  { intros nm' Hin Hin'. apply elem_of_app in Hin'.
    destruct Hin' as [Hin' | Hin'].
    - eapply Hfresh; [|exact Hin']. by apply list_elem_of_further.
    - apply list_elem_of_singleton in Hin'. by subst. }
  assert (forall x, x ∈ specs -> x ∈ table) as Htable'.
  { intros x Hx. by apply Htable, list_elem_of_further. }
  assert (Forall2 (gained utcoffset table days (names ++ [nm])) tasks0 tasks)
    as Hwider.
  { eapply Forall2_impl; [exact Hgained|]. intros t t'.
    apply gained_names. intros x Hx. apply elem_of_app. by left. }
  simpl in H. destruct (by_name !! nm) as [ref|] eqn:Href.
  2: { by apply (IH (names ++ [nm]) tasks). }
  inv_returns H. unfold add_sessions in Hdraw.
  destruct (tasks !! ref) as [task|] eqn:Htask.
  2: { inv_returns Hdraw. by apply (IH (names ++ [nm]) tasks). }
  inv_returns Hdraw. inv_returns Hdraw.
  assert (tracks (sessions task,
                  list_to_set (start <$> sessions task) : gset Z))
    as Htracks by (intros x; apply elem_of_list_to_set).
  pose proof (add_days_fresh _ _ _ _ _ Htracks Hdraw0)
    as (extra' & Hacc' & _ & Hnew).
  apply (add_days_appended utcoffset nm) in Hdraw0.
  cbn [fst] in Hdraw0, Hacc', Hnew.
  destruct Hdraw0 as (extra & Hacc & Happ).
  assert (extra' = extra) as ->
    by (apply (app_inv_head (sessions task)); congruence).
  destruct (Hvalid nm ref Href) as (task1 & Htask1 & Hname).
  rewrite Htask in Htask1. injection Htask1 as <-.
  apply (IH (names ++ [nm])
            (<[ref := mkTask (id task) (name task) a0.1]> tasks));
    [by eapply refs_valid_insert | done | done | done | | done].
  destruct (Forall2_lookup_r _ _ _ _ _ Hgained Htask)
    as (t0 & Ht0 & Hid0 & Hname0 & extra0 & Hs0 & _ & _ & Hnil0).
  assert (extra0 = []) as ->.
  { apply Hnil0. rewrite <- Hname0, Hname.
    apply Hfresh, list_elem_of_here. }
  rewrite app_nil_r in Hs0.
  rewrite <- (list_insert_id tasks0 ref t0 Ht0).
  apply Forall2_insert; [done|].
  split; [done|]. split; [done|]. exists extra. cbn [sessions].
  split; [by rewrite Hacc, Hs0|]. split; [|split].
  - eapply appended_specs; [|exact Happ]. intros x Hx.
    apply list_elem_of_singleton in Hx. subst x.
    apply Htable, list_elem_of_here.
  - by rewrite <- Hs0.
  - intros Hnot. exfalso. apply Hnot. apply elem_of_app. right.
    apply list_elem_of_singleton. congruence.
Qed.

Lemma spec_hours_le nm spec total_hours :
  (nm, spec) ∈ SEED_TASKS ++ EXISTING_SEEDS ->
  returns (uniform (min_h spec) (max_h spec)) total_hours ->
  (total_hours <= 35 # 10)%Q.
Proof.
  intros Hin H. apply list_elem_of_In in Hin. simpl in Hin.
  repeat (destruct Hin as [[= <- <-] | Hin];
          [apply uniform_range in H; [simpl in H; lra | by simpl] |]).
  done.
Qed.

Lemma past_weekdays_two_length today :
  length (past_weekdays today 2) = 10%nat.
Proof.
  unfold past_weekdays, minus_days, minus_weeks.
  pose proof (weekdays_until_weeks 2 (today - 7 * 2)) as Hlen.
  replace (today - 7 * 2 + 7 * Z.of_nat 2 - 1) with (today - 1) in Hlen
    by lia.
  exact Hlen.
Qed.

Lemma concat_length_le {A} (gens : list (list A)) (n : nat) :
  Forall (fun l => (length l <= n)%nat) gens ->
  (length (concat gens) <= n * length gens)%nat.
Proof.
  induction 1 as [|l gens Hl _ IH]; simpl; [lia|].
  rewrite length_app. lia.
Qed.

Lemma concat_Forall {A} (P : A -> Prop) (gens : list (list A)) :
  Forall (Forall P) gens -> Forall P (concat gens).
Proof.
  induction 1 as [|l gens Hl _ IH]; simpl; [constructor|].
  apply Forall_app. by split.
Qed.

Lemma concat_total_duration gens bound :
  Forall (fun l => total_duration l <= bound) gens ->
  total_duration (concat gens) <= bound * Z.of_nat (length gens).
Proof.
  induction 1 as [|l gens Hl _ IH]; simpl.
  { unfold total_duration. simpl. lia. }
  rewrite total_duration_app. lia.
Qed.

Lemma generated_length utcoffset spec d l :
  generated_for utcoffset spec d l -> (length l <= 3)%nat.
Proof.
  intros (h & _ & H). apply gen_sessions_inv in H. simpl in H.
  destruct H as (cursor & n & _ & Hn & H).
  apply (gen_loop_length utcoffset) in H. lia.
Qed.

Lemma generated_chain utcoffset nm spec d l :
  (nm, spec) ∈ SEED_TASKS ++ EXISTING_SEEDS ->
  to_ms utcoffset d 9 0 < to_ms utcoffset d 18 30 ->
  generated_for utcoffset spec d l ->
  chain (to_ms utcoffset d 9 0) (to_ms utcoffset d 18 30) l.
Proof.
  intros Hspec Hwin (h & Hh & H).
  apply (spec_hours_ge nm) in Hh; [|done].
  apply gen_sessions_inv in H. simpl in H.
  destruct H as (cursor & n & Hcur & Hn & H).
  pose proof (total_ms_ge _ Hh) as Hms.
  apply (gen_loop_chain utcoffset) in H.
  - eapply chain_weaken; [|exact H]. lia.
  - lia.
  - assert (budget_floor (n - 1) <= 9); [|lia].
    destruct n as [|[|[|[|n]]]]; simpl; lia.
Qed.

Lemma generated_budget utcoffset nm spec d l :
  (nm, spec) ∈ SEED_TASKS ++ EXISTING_SEEDS ->
  generated_for utcoffset spec d l -> total_duration l <= 12600000.
Proof.
  intros Hspec (h & Hh & H).
  pose proof (spec_hours_ge nm _ _ Hspec Hh) as Hlo.
  pose proof (spec_hours_le nm _ _ Hspec Hh) as Hhi.
  apply gen_sessions_inv in H. simpl in H.
  destruct H as (cursor & n & _ & _ & H).
  apply (gen_loop_budget utcoffset) in H; [|apply int_nonneg; nra].
  destruct H as [_ Hsum].
  assert (int (h * 3600000) <= 12600000); [|lia].
  rewrite int_floor by nra.
  change 12600000 with (Qfloor ((35 # 10) * 3600000)).
  apply Qfloor_resp_le. nra.
Qed.

Lemma appended_length utcoffset specs days extra :
  appended utcoffset specs days extra ->
  (length extra <= 3 * length days)%nat.
Proof.
  intros (gens & Hsub & Hlen & Hgens). apply sublist_length in Hsub.
  assert (length (concat gens) <= 3 * length gens)%nat; [|lia].
  apply concat_length_le. eapply Forall_impl; [exact Hgens|].
  intros l (d & nm & spec & _ & _ & Hgen). by eapply generated_length.
Qed.

Lemma chain_in_window utcoffset days d l :
  d ∈ days ->
  chain (to_ms utcoffset d 9 0) (to_ms utcoffset d 18 30) l ->
  Forall (in_window_of utcoffset days) l.
Proof.
  intros Hd Hchain. apply Forall_forall. intros s Hs.
  destruct (chain_elem _ _ _ _ Hchain Hs) as (e & He & Hlo & Hlt & Hhi).
  by exists d, e.
Qed.

Lemma appended_in_window utcoffset days extra :
  (forall d, d ∈ days -> to_ms utcoffset d 9 0 < to_ms utcoffset d 18 30) ->
  appended utcoffset (SEED_TASKS ++ EXISTING_SEEDS) days extra ->
  Forall (in_window_of utcoffset days) extra /\
  0 <= total_duration extra <= 12600000 * Z.of_nat (length days).
Proof.
  intros Hwin (gens & Hsub & Hlen & Hgens).
  assert (Forall (Forall (in_window_of utcoffset days)) gens) as Hin.
  { eapply Forall_impl; [exact Hgens|].
    intros l (d & nm & spec & Hd & Hspec & Hgen).
    eapply chain_in_window; [done|].
    eapply generated_chain; [done | by apply Hwin | done]. }
  apply concat_Forall in Hin.
  split; [by eapply sublist_keeps_Forall|].
  assert (Forall (fun s => 0 <= duration s) (concat gens)) as Hpos.
  { eapply Forall_impl; [exact Hin|].
    intros s (d & e & _ & He & _ & Hlt & _). unfold duration.
    rewrite He. lia. }
  pose proof (sublist_total_duration _ _ Hsub Hpos) as Hle.
  assert (total_duration (concat gens)
          <= 12600000 * Z.of_nat (length gens)) as Hsum.
  { apply concat_total_duration. eapply Forall_impl; [exact Hgens|].
    intros l (d & nm & spec & _ & Hspec & Hgen).
    by eapply generated_budget. }
  nia.
Qed.

(** The shape of a run, with what each task gained. *)
Lemma seed_gained utcoffset today uuids tasks result :
  returns (seed utcoffset today uuids tasks) result ->
  exists created grown,
    Forall (fun t => sessions t = []) created /\
    Forall2 (gained utcoffset (SEED_TASKS ++ EXISTING_SEEDS)
               (past_weekdays today 2) (SEED_TASKS ++ EXISTING_SEEDS).*1)
            (tasks ++ created) grown /\
    result = sort_sessions <$> grown.
Proof.
  unfold seed. intros H. inv_returns H. inv_returns H. inv_returns H.
  destruct (create_missing_app uuids SEED_TASKS tasks
              (index_tasks 0 tasks ∅)) as (created & Happ & Hcreated).
  destruct (create_missing_valid uuids SEED_TASKS tasks
              (index_tasks 0 tasks ∅)) as (Hvalid & _ & _).
  { apply (index_tasks_valid [] tasks ∅). intros nm' i.
    by rewrite lookup_empty. }
  set (created_state := create_missing uuids SEED_TASKS tasks
                          (index_tasks 0 tasks ∅)) in *.
  rewrite Happ in *.
  exists created, a0. split; [done|]. split; [|done].
  pose proof (seed_each_grows _ _ _ _ _ _ Hdraw) as Hgrows.
  apply (seed_each_gained utcoffset (SEED_TASKS ++ EXISTING_SEEDS) _ _ _ []
           (tasks ++ created)) in Hdraw.
  - apply (seed_each_gained utcoffset (SEED_TASKS ++ EXISTING_SEEDS) _ _ _
             ([] ++ SEED_TASKS.*1) (tasks ++ created)) in Hdraw0.
    + by rewrite fmap_app.
    + by eapply grows_refs_valid.
    + by compute_done.
    + intros nm Hnm Hin. apply list_elem_of_In in Hnm, Hin.
      simpl in Hnm, Hin.
      destruct Hnm as [<- | [<- | []]]; intuition discriminate.
    + intros x Hx. apply elem_of_app. by right.
    + exact Hdraw.
  - done.
  - by compute_done.
  - intros nm _ Hin. by apply elem_of_nil in Hin.
  - intros x Hx. apply elem_of_app. by left.
  - clear. induction (tasks ++ created); constructor;
      [apply gained_refl | done].
Qed.

Lemma seed_sessions_at utcoffset today uuids tasks result i :
  returns (seed utcoffset today uuids tasks) result ->
  exists extra,
    sessions_at result i = sort_by_start (sessions_at tasks i ++ extra) /\
    appended utcoffset (SEED_TASKS ++ EXISTING_SEEDS)
      (past_weekdays today 2) extra /\
    fresh_from (sessions_at tasks i) extra.
Proof.
  intros H. apply seed_gained in H.
  destruct H as (created & grown & Hcreated & Hgained & ->).
  unfold sessions_at. rewrite list_lookup_fmap.
  destruct ((tasks ++ created) !! i) as [t0|] eqn:Ht0.
  - destruct (Forall2_lookup_l _ _ _ _ _ Hgained Ht0)
      as (t2 & -> & _ & _ & extra & Hs & Happ & Hfresh & _).
    exists extra. cbn. rewrite Hs.
    assert (sessions t0 = default [] (sessions <$> tasks !! i)) as <-;
      [|done].
    apply lookup_app_Some in Ht0. destruct Ht0 as [-> | [Hlen Ht0]]; [done|].
    rewrite (lookup_ge_None_2 tasks i) by done. cbn.
    apply list_elem_of_lookup_2 in Ht0.
    by apply (proj1 (Forall_forall _ _) Hcreated).
  - exists []. split; [|split; [apply appended_nil | apply fresh_from_nil]].
    assert (grown !! i = None) as ->.
    { apply lookup_ge_None. apply lookup_ge_None in Ht0.
      by rewrite <- (Forall2_length _ _ _ Hgained). }
    assert (tasks !! i = None) as ->; [|done].
    apply lookup_ge_None. apply lookup_ge_None in Ht0.
    rewrite length_app in Ht0. lia.
Qed.

(** X7 (other tasks).  A task of the document whose name is neither in
    [SEED_TASKS] nor in [EXISTING_SEEDS] gets no session: after the run it
    is the same task with its sessions sorted. *)
Theorem seed_untouched utcoffset today uuids tasks g (i : nat) t :
  tasks !! i = Some t ->
  name t ∉ (SEED_TASKS ++ EXISTING_SEEDS).*1 ->
  (seed utcoffset today uuids tasks g).1 !! i = Some (sort_sessions t).
Proof.
  intros Hlook Hname.
  pose proof (returns_run (seed utcoffset today uuids tasks) g) as H.
  apply seed_gained in H.
  destruct H as (created & grown & _ & Hgained & ->).
  eapply Forall2_lookup_l in Hgained; [|by apply lookup_app_l_Some].
  destruct Hgained as (t2 & Ht2 & Hid & Hnm & extra & Hs & _ & _ & Hnil).
  rewrite (Hnil Hname), app_nil_r in Hs.
  rewrite list_lookup_fmap, Ht2. cbn. f_equal.
  destruct t, t2. simpl in *. by subst.
Qed.

(** X8 (at most thirty).  A run adds at most 30 sessions to a task: three
    for each of the ten weekdays. *)
Theorem seed_session_count utcoffset today uuids tasks g (i : nat) :
  (length (sessions_at (seed utcoffset today uuids tasks g).1 i)
   <= length (sessions_at tasks i) + 30)%nat.
Proof.
  pose proof (returns_run (seed utcoffset today uuids tasks) g) as H.
  apply (seed_sessions_at _ _ _ _ _ i) in H.
  destruct H as (extra & -> & Happ & _).
  apply appended_length in Happ. rewrite past_weekdays_two_length in Happ.
  rewrite sort_by_start_perm, length_app. lia.
Qed.

(** X9 (where the new sessions lie).  When 09:00 precedes 18:30 on each of
    the past weekdays, the sessions of a task after a run are those it had
    plus sessions that each have an end, start before it and lie inside the
    09:00 to 18:30 window of one of these weekdays. *)
Theorem seed_new_in_windows utcoffset today uuids tasks g (i : nat) :
  (forall d, d ∈ past_weekdays today 2 ->
             to_ms utcoffset d 9 0 < to_ms utcoffset d 18 30) ->
  exists extra,
    sessions_at (seed utcoffset today uuids tasks g).1 i
      ≡ₚ sessions_at tasks i ++ extra /\
    Forall (in_window_of utcoffset (past_weekdays today 2)) extra.
Proof.
  intros Hwin.
  pose proof (returns_run (seed utcoffset today uuids tasks) g) as H.
  apply (seed_sessions_at _ _ _ _ _ i) in H.
  destruct H as (extra & -> & Happ & _).
  exists extra. split; [apply sort_by_start_perm|].
  by apply appended_in_window.
Qed.

(** X10 (hours gained).  When 09:00 precedes 18:30 on each of the past
    weekdays, a run does not lower the summed duration of a task's
    sessions, and raises it by at most 35 hours (126000000 ms). *)
Theorem seed_hours_gained utcoffset today uuids tasks g (i : nat) :
  (forall d, d ∈ past_weekdays today 2 ->
             to_ms utcoffset d 9 0 < to_ms utcoffset d 18 30) ->
  total_duration (sessions_at tasks i)
    <= total_duration (sessions_at (seed utcoffset today uuids tasks g).1 i)
    <= total_duration (sessions_at tasks i) + 126000000.
Proof.
  intros Hwin.
  pose proof (returns_run (seed utcoffset today uuids tasks) g) as H.
  apply (seed_sessions_at _ _ _ _ _ i) in H.
  destruct H as (extra & -> & Happ & _).
  apply appended_in_window in Happ; [|done]. destruct Happ as [_ Hsum].
  rewrite past_weekdays_two_length in Hsum.
  rewrite (total_duration_perm _ _ (sort_by_start_perm _)).
  rewrite total_duration_app. lia.
Qed.

(** ** Which tasks a run creates *)

Lemma filter_ext_in {A} (P1 P2 : A -> Prop)
    `{!forall x, Decision (P1 x)} `{!forall x, Decision (P2 x)} (l : list A) :
  (forall x, x ∈ l -> P1 x <-> P2 x) -> filter P1 l = filter P2 l.
Proof.
  induction l as [|x l IH]; intros Hiff; [done|].
  assert (filter P1 l = filter P2 l) as Hrest.
  { apply IH. intros y Hy. by apply Hiff, list_elem_of_further. }
  destruct (decide (P1 x)) as [Hx | Hx].
  - rewrite !filter_cons_True, Hrest;
      [done | by apply Hiff; [apply list_elem_of_here|] | done].
  - rewrite !filter_cons_False, Hrest; [done | | done].
    intros Hx'. apply Hx. by apply Hiff; [apply list_elem_of_here|].
Qed.

Lemma filter_none {A} (P : A -> Prop) `{!forall x, Decision (P x)}
    (l : list A) :
  Forall (fun x => ~ P x) l -> filter P l = [].
Proof.
  induction 1 as [|x l Hx _ IH]; [done|].
  by rewrite filter_cons_False.
Qed.

Lemma index_tasks_None i tasks (by_name : gmap string nat) nm :
  index_tasks i tasks by_name !! nm = None <->
  by_name !! nm = None /\ nm ∉ name <$> tasks.
Proof.
  revert i by_name. induction tasks as [|t tasks IH]; intros i by_name.
  { simpl. rewrite elem_of_nil. tauto. }
  cbn [index_tasks].
  rewrite IH, fmap_cons, not_elem_of_cons, lookup_insert_None.
  split; [intros [[? ?] ?] | intros [? [? ?]]]; repeat split; congruence.
Qed.

Lemma create_missing_names uuids specs tasks (by_name : gmap string nat) :
  NoDup specs.*1 ->
  name <$> (create_missing uuids specs tasks by_name).1 =
  (name <$> tasks) ++ filter (fun nm => by_name !! nm = None) specs.*1.
Proof.
  revert uuids tasks by_name.
  induction specs as [|[nm spec] specs IH];
    intros uuids tasks by_name Hnodup.
  { simpl. by rewrite app_nil_r. }
  rewrite fmap_cons in *. cbn [fst] in *.
  apply NoDup_cons in Hnodup. destruct Hnodup as [Hnm Hnodup].
  simpl. destruct (by_name !! nm) as [ref|] eqn:Hlook.
  - rewrite filter_cons_False by (rewrite Hlook; done). by apply IH.
  - rewrite filter_cons_True by done. rewrite IH by done.
    rewrite fmap_app, <- app_assoc. f_equal. simpl. f_equal.
    apply filter_ext_in. intros x Hx. rewrite lookup_insert_None.
    split; [tauto|]. intros Hnone. split; [done|]. by intros ->.
Qed.

(** The names after a run: those of the document, then the names of
    [SEED_TASKS] that the document lacks. *)
Lemma seed_names_created utcoffset today uuids tasks result :
  returns (seed utcoffset today uuids tasks) result ->
  name <$> result =
  (name <$> tasks) ++
  filter (fun nm => nm ∉ name <$> tasks) SEED_TASKS.*1.
Proof.
  intros H. apply seed_names in H. rewrite H.
  rewrite create_missing_names by by compute_done.
  f_equal. apply filter_ext_in. intros nm _.
  rewrite index_tasks_None, lookup_empty. tauto.
Qed.

(** X11 (what a run creates).  After a run the document has its tasks, in
    their order, followed by one task for each name of [SEED_TASKS] that no
    task of the document had, in the order of [SEED_TASKS]. *)
Theorem seed_creates_missing utcoffset today uuids tasks g :
  name <$> (seed utcoffset today uuids tasks g).1 =
  (name <$> tasks) ++
  filter (fun nm => nm ∉ name <$> tasks) SEED_TASKS.*1.
Proof.
  pose proof (returns_run (seed utcoffset today uuids tasks) g) as H.
  by apply seed_names_created in H.
Qed.

(** X12 (the five names are there).  After a run every name of
    [SEED_TASKS] is the name of a task of the document. *)
Theorem seed_has_seed_tasks utcoffset today uuids tasks g :
  Forall (fun nm => nm ∈ name <$> (seed utcoffset today uuids tasks g).1)
         SEED_TASKS.*1.
Proof.
  pose proof (returns_run (seed utcoffset today uuids tasks) g) as H.
  apply seed_names_created in H. rewrite H.
  apply Forall_forall. intros nm Hnm. apply elem_of_app.
  destruct (decide (nm ∈ name <$> tasks)) as [Hin | Hout]; [by left|].
  right. by apply list_elem_of_filter.
Qed.

(** X13 (a second run creates no task).  Running the transformation on the
    document that a run returned, on any day and with any draws, leaves the
    list of task names as the first run made it. *)
Theorem seed_twice_names utcoffset today uuids tasks g today' uuids' g' :
  let once := (seed utcoffset today uuids tasks g).1 in
  name <$> (seed utcoffset today' uuids' once g').1 = name <$> once.
Proof.
  intros once.
  pose proof (returns_run (seed utcoffset today' uuids' once) g') as H.
  apply seed_names_created in H. rewrite H.
  assert (filter (fun nm => nm ∉ name <$> once) SEED_TASKS.*1 = []) as ->;
    [|by rewrite app_nil_r].
  pose proof (returns_run (seed utcoffset today uuids tasks) g) as Honce.
  apply seed_names_created in Honce. fold once in Honce.
  apply filter_none. apply Forall_forall. intros nm Hnm Hout.
  apply Hout. rewrite Honce. apply elem_of_app.
  destruct (decide (nm ∈ name <$> tasks)) as [Hin | Hout']; [by left|].
  right. by apply list_elem_of_filter.
Qed.

(** ** The database after [main] *)


(** X15 (a user without a row).  When the user has no row in [user_data],
    [main] stores a document of exactly the five tasks of [SEED_TASKS], in
    their order. *)
Theorem main_first_document utcoffset today uuids args database url row g :
  db args = Some url ->
  List.find (fun row => String.eqb row.2 (email args)) (users database)
    = Some row ->
  user_data database !! row.1 = None ->
  exists out database' tasks,
    (main utcoffset today uuids args database g).1
      = Returned out database' /\
    user_data database' !! row.1 = Some tasks /\
    name <$> tasks = SEED_TASKS.*1.
Proof.
  intros Hdb Hfind Hrow. unfold main. rewrite Hdb, Hfind, Hrow. unfold bind.
  pose proof (returns_run (seed utcoffset today uuids []) g) as H.
  apply seed_names_created in H. cbn [default] in *.
  destruct (seed utcoffset today uuids [] g) as [tasks g'].
  eexists _, _, tasks. split; [done|]. simpl.
  split; [by rewrite lookup_insert_eq|]. cbn [fst] in H. rewrite H.
  vm_compute. reflexivity.
Qed.

(** ** The [.env] file and the database URL *)

Section EnvFileProperties.

Variable strip : string -> string.
Variable putenv_ok : string -> string -> bool.

Lemma setdefault_keeps key value environ environ' k v :
  setdefault putenv_ok key value environ = Some environ' ->
  environ !! k = Some v -> environ' !! k = Some v.
Proof.
  unfold setdefault. destruct (environ !! key) eqn:Hkey.
  { by intros [= <-]. }
  destruct (putenv_ok key value); [|done]. intros [= <-] Hk.
  rewrite lookup_insert_ne; [done|]. congruence.
Qed.

Lemma env_line_keeps environ line environ' k v :
  env_line strip putenv_ok environ line = Some environ' ->
  environ !! k = Some v -> environ' !! k = Some v.
Proof.
  unfold env_line. destruct (_ && _).
  - destruct (split_eq line) as [[k' v']|]; [|done].
    apply setdefault_keeps.
  - by intros [= <-].
Qed.

Lemma load_lines_keeps lines environ environ' k v :
  load_lines strip putenv_ok lines environ = Some environ' ->
  environ !! k = Some v -> environ' !! k = Some v.
Proof.
  revert environ. induction lines as [|line lines IH]; intros environ; simpl.
  { by intros [= <-]. }
  destruct (env_line strip putenv_ok environ line) as [environ1|] eqn:Hline;
    [|done].
  intros Hload Hk. eapply IH; [done|]. by eapply env_line_keeps.
Qed.

Lemma split_eq_join k v :
  contains_eq k = false -> split_eq (k ++ "=" ++ v) = Some (k, v).
Proof.
  induction k as [|c k IH]; simpl; [done|].
  destruct (Ascii.eqb c "="); [done|]. intros Hk. by rewrite IH.
Qed.

Lemma contains_eq_join k v : contains_eq (k ++ "=" ++ v) = true.
Proof.
  induction k as [|c k IH]; simpl; [done|].
  by destruct (Ascii.eqb c "=").
Qed.

Lemma load_env_lookup env_file environ environ' k v :
  load_env strip putenv_ok env_file environ = Some environ' ->
  environ !! k = Some v ->
  environ' !! k = Some v.
Proof.
  destruct env_file as [lines|]; simpl.
  - apply load_lines_keeps.
  - by intros [= <-].
Qed.

(** X16 (the environment wins).  Loading the [.env] file changes no
    variable that the environment of the process already has: the
    environment is a part of the loaded one. *)
Theorem load_env_keeps env_file environ environ' :
  load_env strip putenv_ok env_file environ = Some environ' ->
  environ ⊆ environ'.
Proof.
  intros Hload. apply map_subseteq_spec. intros k v.
  by apply (load_env_lookup env_file).
Qed.

(** X17 (skipped lines).  Lines without ["="] and lines that start with
    ["#"] have no effect: loading the file is loading its other lines. *)
Theorem load_lines_skips lines environ :
  load_lines strip putenv_ok
    (filter (fun line => contains_eq line = true /\
                         starts_with_hash line = false) lines) environ =
  load_lines strip putenv_ok lines environ.
Proof.
  revert environ. induction lines as [|line lines IH]; intros environ.
  { done. }
  destruct (decide (contains_eq line = true /\
                    starts_with_hash line = false)) as [[Heq Hhash] | Hskip].
  - rewrite filter_cons_True by done. simpl.
    destruct (env_line strip putenv_ok environ line); [apply IH | done].
  - rewrite filter_cons_False by done. simpl. unfold env_line.
    destruct (contains_eq line), (starts_with_hash line); simpl;
      try apply IH.
    exfalso. by apply Hskip.
Qed.

(** X18 (an assignment).  After a file whose first line is [k=v], with no
    ["="] in [k] and no ["#"] in front, has been loaded, the variable
    [k.strip()] has the value it had in the environment, or [v.strip()]
    if it had none. *)
Theorem load_lines_assigns k v lines environ environ' :
  contains_eq k = false ->
  starts_with_hash (k ++ "=" ++ v) = false ->
  load_lines strip putenv_ok ((k ++ "=" ++ v)%string :: lines) environ
    = Some environ' ->
  environ' !! strip k = Some (default (strip v) (environ !! strip k)).
Proof.
  intros Hk Hhash. simpl. unfold env_line.
  rewrite contains_eq_join, Hhash, split_eq_join by done. simpl.
  unfold setdefault. destruct (environ !! strip k) as [old|] eqn:Hold.
  - intros Hload. simpl. by eapply load_lines_keeps.
  - destruct (putenv_ok (strip k) (strip v)); [|done].
    intros Hload. simpl. eapply load_lines_keeps; [done|].
    apply lookup_insert_eq.
Qed.

(** X19 (where the database URL comes from).  [args.db] is the [--db]
    option if it is given, else [DATABASE_URL] of the environment of the
    process if it is set, else [DATABASE_URL] of the [.env] file; an empty
    string counts as none. *)
Theorem db_precedence env_file environ environ' cli e :
  load_env strip putenv_ok env_file environ = Some environ' ->
  opt_email cli = Some e ->
  parse_args cli environ' =
  Some (mkArgs e
          (truthy
             match opt_db cli with
             | Some u => Some u
             | None =>
                 match environ !! "DATABASE_URL"%string with
                 | Some u => Some u
                 | None => environ' !! "DATABASE_URL"%string
                 end
             end)).
Proof.
  intros Hload He. unfold parse_args. rewrite He.
  destruct (opt_db cli); [done|].
  destruct (environ !! "DATABASE_URL"%string) as [u|] eqn:Hu; [|done].
  by rewrite (load_env_lookup _ _ _ _ _ Hload Hu).
Qed.

End EnvFileProperties.

(** X20 (new starts).  The sessions that a run adds to a task have starts
    that differ from one another and from the start of every session the
    task had, whether or not those had distinct starts. *)
Theorem seed_new_starts utcoffset today uuids tasks g (i : nat) :
  exists extra,
    sessions_at (seed utcoffset today uuids tasks g).1 i
      ≡ₚ sessions_at tasks i ++ extra /\
    NoDup (start <$> extra) /\
    (forall s, s ∈ extra -> start s ∉ start <$> sessions_at tasks i).
Proof.
  pose proof (returns_run (seed utcoffset today uuids tasks) g) as H.
  apply (seed_sessions_at _ _ _ _ _ i) in H.
  destruct H as (extra & -> & _ & Hnd & Hout).
  exists extra. split; [apply sort_by_start_perm|]. split; [done|].
  intros s Hs. by apply Hout, list_elem_of_fmap_2.
Qed.

(** ** The script as a whole *)

(** X21 (an empty --db).  When [--db] is given as an empty string, the
    script ends in the usage error even if [DATABASE_URL] is set: the
    environment is a default for a missing option only. *)
Theorem script_empty_db utcoffset strip putenv_ok env_file environ environ'
    cli today uuids database g :
  load_env strip putenv_ok env_file environ = Some environ' ->
  opt_db cli = Some ""%string ->
  script utcoffset strip putenv_ok env_file environ cli today uuids database g
  = (Some UsageError, g).
Proof.
  intros Hload Hdb. unfold script, parse_args. rewrite Hload, Hdb.
  by destruct (opt_email cli).
Qed.

(** ** The further properties on sample inputs *)

Lemma gen_sessions_exact_witness :
  (0 <= 1)%Q /\
  (total_duration (gen_sessions Sample.zone Sample.day 1 Sample.tape).1
     = int (1 * 3600000) \/
   exists s e,
     last (gen_sessions Sample.zone Sample.day 1 Sample.tape).1 = Some s /\
     end_ s = Some e /\ to_ms Sample.zone Sample.day 18 30 - 1500000 <= e).
Proof.
  assert (0 <= 1)%Q as Hh by (unfold Qle; simpl; lia).
  split; [exact Hh|].
  exact (gen_sessions_exact Sample.zone Sample.day 1 Sample.tape Hh).
Defined.

Lemma gen_sessions_zero_witness :
  int (0 * 3600000) = 0 /\
  to_ms Sample.zone Sample.day 9 0 <= to_ms Sample.zone Sample.day 18 30 /\
  exists c,
    (gen_sessions Sample.zone Sample.day 0 Sample.tape).1
      = [mkSession c (Some c)] /\
    to_ms Sample.zone Sample.day 9 0 <= c <= to_ms Sample.zone Sample.day 18 30.
Proof.
  assert (int (0 * 3600000) = 0) as Hzero by reflexivity.
  assert (to_ms Sample.zone Sample.day 9 0
          <= to_ms Sample.zone Sample.day 18 30) as Hwin
    by (vm_compute; discriminate).
  split; [exact Hzero|]. split; [exact Hwin|].
  exact (gen_sessions_zero Sample.zone Sample.day 0 Sample.tape Hzero Hwin).
Defined.

Lemma seed_untouched_witness :
  Sample.other_doc !! 0%nat
    = Some (mkTask "id-7" "reading"
              [mkSession 50 (Some 60); mkSession 10 (Some 20)]) /\
  ("reading"%string ∉ (SEED_TASKS ++ EXISTING_SEEDS).*1) /\
  (seed Sample.zone Sample.today Sample.uuids Sample.other_doc Sample.tape).1
    !! 0%nat
    = Some (mkTask "id-7" "reading"
              [mkSession 10 (Some 20); mkSession 50 (Some 60)]).
Proof.
  assert ("reading"%string ∉ (SEED_TASKS ++ EXISTING_SEEDS).*1) as Hname.
  { intros Hin. apply list_elem_of_In in Hin. simpl in Hin.
    intuition discriminate. }
  split; [reflexivity|]. split; [exact Hname|].
  exact (seed_untouched Sample.zone Sample.today Sample.uuids
           Sample.other_doc Sample.tape 0
           (mkTask "id-7" "reading"
              [mkSession 50 (Some 60); mkSession 10 (Some 20)])
           eq_refl Hname).
Defined.

Lemma sample_windows d :
  d ∈ past_weekdays Sample.today 2 ->
  to_ms Sample.zone d 9 0 < to_ms Sample.zone d 18 30.
Proof. intros _. unfold to_ms, Sample.zone. lia. Defined.

Lemma seed_new_in_windows_witness :
  (forall d, d ∈ past_weekdays Sample.today 2 ->
             to_ms Sample.zone d 9 0 < to_ms Sample.zone d 18 30) /\
  exists extra,
    sessions_at
      (seed Sample.zone Sample.today Sample.uuids Sample.doc Sample.tape).1 0
      ≡ₚ sessions_at Sample.doc 0 ++ extra /\
    Forall (in_window_of Sample.zone (past_weekdays Sample.today 2)) extra.
Proof.
  split; [exact sample_windows|].
  exact (seed_new_in_windows Sample.zone Sample.today Sample.uuids
           Sample.doc Sample.tape 0 sample_windows).
Defined.

Lemma seed_hours_gained_witness :
  (forall d, d ∈ past_weekdays Sample.today 2 ->
             to_ms Sample.zone d 9 0 < to_ms Sample.zone d 18 30) /\
  total_duration (sessions_at Sample.doc 0)
    <= total_duration
         (sessions_at
            (seed Sample.zone Sample.today Sample.uuids Sample.doc
               Sample.tape).1 0)
    <= total_duration (sessions_at Sample.doc 0) + 126000000.
Proof.
  split; [exact sample_windows|].
  exact (seed_hours_gained Sample.zone Sample.today Sample.uuids
           Sample.doc Sample.tape 0 sample_windows).
Defined.


Lemma main_first_document_witness :
  db Sample.args_found = Some "postgresql://localhost/tt"%string /\
  List.find (fun row => String.eqb row.2 (email Sample.args_found))
    (users Sample.database_no_row) = Some (1, "you@example.com"%string) /\
  user_data Sample.database_no_row !! (1, "you@example.com"%string).1
    = None /\
  exists out database' tasks,
    (main Sample.zone Sample.today Sample.uuids Sample.args_found
       Sample.database_no_row Sample.tape).1 = Returned out database' /\
    user_data database' !! (1, "you@example.com"%string).1 = Some tasks /\
    name <$> tasks = SEED_TASKS.*1.
Proof.
  split; [reflexivity|]. split; [reflexivity|]. split; [reflexivity|].
  exact (main_first_document Sample.zone Sample.today Sample.uuids
           Sample.args_found Sample.database_no_row
           "postgresql://localhost/tt" (1, "you@example.com"%string)
           Sample.tape eq_refl eq_refl eq_refl).
Defined.

Lemma sample_load :
  load_env Sample.strip Sample.putenv_ok (Some Sample.env_lines)
    Sample.environ
  = Some (<["DEBUG"%string := "1"%string]> Sample.environ).
Proof. vm_compute. reflexivity. Defined.

Lemma load_env_keeps_witness :
  load_env Sample.strip Sample.putenv_ok (Some Sample.env_lines)
    Sample.environ
  = Some (<["DEBUG"%string := "1"%string]> Sample.environ) /\
  Sample.environ ⊆ <["DEBUG"%string := "1"%string]> Sample.environ.
Proof.
  split; [exact sample_load|].
  exact (load_env_keeps Sample.strip Sample.putenv_ok
           (Some Sample.env_lines) Sample.environ _ sample_load).
Defined.

Lemma load_lines_assigns_witness :
  contains_eq " DATABASE_URL " = false /\
  starts_with_hash
    (" DATABASE_URL " ++ "=" ++ " postgresql://localhost/tt ") = false /\
  load_lines Sample.strip Sample.putenv_ok
    [(" DATABASE_URL " ++ "=" ++ " postgresql://localhost/tt ")%string;
     "DEBUG=1"%string] ∅
  = Some {[ "DATABASE_URL"%string := "postgresql://localhost/tt"%string;
            "DEBUG"%string := "1"%string ]} /\
  ({[ "DATABASE_URL"%string := "postgresql://localhost/tt"%string;
      "DEBUG"%string := "1"%string ]} : gmap string string)
    !! Sample.strip " DATABASE_URL "
  = Some (default (Sample.strip " postgresql://localhost/tt ")
            ((∅ : gmap string string) !! Sample.strip " DATABASE_URL ")).
Proof.
  assert (load_lines Sample.strip Sample.putenv_ok
            [(" DATABASE_URL " ++ "=" ++ " postgresql://localhost/tt ")%string;
             "DEBUG=1"%string] ∅
          = Some {[ "DATABASE_URL"%string
                      := "postgresql://localhost/tt"%string;
                    "DEBUG"%string := "1"%string ]}) as Hload
    by (vm_compute; reflexivity).
  split; [reflexivity|]. split; [reflexivity|]. split; [exact Hload|].
  exact (load_lines_assigns Sample.strip Sample.putenv_ok
           " DATABASE_URL " " postgresql://localhost/tt "
           ["DEBUG=1"%string] ∅ _ eq_refl eq_refl Hload).
Defined.

Lemma db_precedence_witness :
  load_env Sample.strip Sample.putenv_ok (Some Sample.env_lines)
    Sample.environ
  = Some (<["DEBUG"%string := "1"%string]> Sample.environ) /\
  opt_email Sample.cli = Some "you@example.com"%string /\
  parse_args Sample.cli (<["DEBUG"%string := "1"%string]> Sample.environ) =
  Some (mkArgs "you@example.com"
          (truthy
             match opt_db Sample.cli with
             | Some u => Some u
             | None =>
                 match Sample.environ !! "DATABASE_URL"%string with
                 | Some u => Some u
                 | None =>
                     (<["DEBUG"%string := "1"%string]> Sample.environ)
                       !! "DATABASE_URL"%string
                 end
             end)).
Proof.
  split; [exact sample_load|]. split; [reflexivity|].
  exact (db_precedence Sample.strip Sample.putenv_ok
           (Some Sample.env_lines) Sample.environ _ Sample.cli
           "you@example.com" sample_load eq_refl).
Defined.

Lemma script_empty_db_witness :
  load_env Sample.strip Sample.putenv_ok (Some Sample.env_lines)
    Sample.environ
  = Some (<["DEBUG"%string := "1"%string]> Sample.environ) /\
  opt_db Sample.cli_empty_db = Some ""%string /\
  script Sample.zone Sample.strip Sample.putenv_ok (Some Sample.env_lines)
    Sample.environ Sample.cli_empty_db Sample.today Sample.uuids
    Sample.database Sample.tape
  = (Some UsageError, Sample.tape).
Proof.
  split; [exact sample_load|]. split; [reflexivity|].
  exact (script_empty_db Sample.zone Sample.strip Sample.putenv_ok
           (Some Sample.env_lines) Sample.environ _ Sample.cli_empty_db
           Sample.today Sample.uuids Sample.database Sample.tape
           sample_load eq_refl).
Defined.
